(** * Observer / Observable (src/index.ts)

    A shallow embedding of the push-based stream core of [src/index.ts]:
    the classes [Observer] and [Observable], the factory [Observable.from]
    and [Observable.subscribe].

    The two classes are mutable objects whose methods call back into code
    supplied by the user (the three handlers, the producer and the teardown it
    returns), and that code may call the methods again.  We therefore model

    - the objects as records in a store ([heap]), addressed by references;
    - user callbacks as scripts ([Code]) over the Observer API, [throw] and
      [console.log];
    - the methods as functions in a state-and-exception monad [M], written
      against an abstract callback invoker [call], exactly in the order of the
      source;
    - every callback invocation as an [Event] appended to a [trace], so that
      "the handler was invoked" is a statement about the trace.

    The knot between methods and callbacks is tied by [invoke], which bounds
    the nesting depth of callbacks by a fuel argument. *)

From Stdlib Require Import ZArith.
From stdpp Require Import base list strings.

(** ** Values of the source's types *)

(** [type ApiError = Error | string | number | unknown]: the core never
    inspects the payload. *)
Inductive ApiError : Type :=
  | ErrError (message : string)
  | ErrString (s : string)
  | ErrNumber (n : Z)
  | ErrUnknown (tag : nat).

(** A reference to an [Observer] object. *)
Abbreviation Ref := nat (only parsing).

(** ** User code

    What a callback written by the user may do to the core: call the four
    methods of an Observer it holds a reference to, throw, or log to the
    console. *)
Inductive Cmd (T : Type) : Type :=
  | CNext (o : Ref) (v : T)            (* o.next(v) *)
  | CError (o : Ref) (e : ApiError)    (* o.error(e) *)
  | CComplete (o : Ref)                (* o.complete() *)
  | CUnsubscribe (o : Ref)             (* o.unsubscribe() *)
  | CThrow (e : ApiError)              (* throw e *)
  | CLog (s : string).                 (* console.log(s) *)
Arguments CNext {T} o v.
Arguments CError {T} o e.
Arguments CComplete {T} o.
Arguments CUnsubscribe {T} o.
Arguments CThrow {T} e.
Arguments CLog {T} s.

Definition Code (T : Type) : Type := list (Cmd T).

(** [type Handler<T> = { next?: ...; error?: ...; complete?: ... }] *)
Module Handler.
Record t (T : Type) : Type := mk {
  next : option (T -> Code T);
  error : option (ApiError -> Code T);
  complete : option (Code T)
}.
Arguments mk {T} next error complete.
Arguments next {T} h : rename.
Arguments error {T} h : rename.
Arguments complete {T} h : rename.
End Handler.

(** The fields of [class Observer<T>]. *)
Record ObserverObj (T : Type) : Type := mkObserver {
  handlers : Handler.t T;
  isUnsubscribed : bool;
  _unsubscribe : option (Code T)
}.
Arguments mkObserver {T} handlers isUnsubscribed _unsubscribe.
Arguments handlers {T} this : rename.
Arguments isUnsubscribed {T} this : rename.
Arguments _unsubscribe {T} this : rename.

(** What the outside world sees: which callback was entered, in order. *)
Inductive Event (T : Type) : Type :=
  | HNext (o : Ref) (v : T)           (* handlers.next(v) of observer o *)
  | HError (o : Ref) (e : ApiError)   (* handlers.error(e) of observer o *)
  | HComplete (o : Ref)               (* handlers.complete() of observer o *)
  | Teardown (o : Ref)                (* o._unsubscribe() *)
  | Console (s : string).             (* console.log(s) *)
Arguments HNext {T} o v.
Arguments HError {T} o e.
Arguments HComplete {T} o.
Arguments Teardown {T} o.
Arguments Console {T} s.

Record World (T : Type) : Type := mkWorld {
  heap : list (ObserverObj T);
  trace : list (Event T)
}.
Arguments mkWorld {T} heap trace.
Arguments heap {T} w : rename.
Arguments trace {T} w : rename.

(** ** The monad of methods: state, exceptions, and the two ways a model run
    can stop short (callback nesting deeper than the fuel, or a script naming
    an object that was never allocated).  Every outcome carries the world it
    stopped in. *)
Inductive Outcome (T A : Type) : Type :=
  | Returned (a : A) (w : World T)
  | Thrown (e : ApiError) (w : World T)
  | OutOfFuel (w : World T)
  | BadRef (w : World T).
Arguments Returned {T A} a w.
Arguments Thrown {T A} e w.
Arguments OutOfFuel {T A} w.
Arguments BadRef {T A} w.

Definition M (T A : Type) : Type := World T -> Outcome T A.

Section Monad.
Context {T : Type}.

Definition world_of {A} (r : Outcome T A) : World T :=
  match r with
  | Returned _ w | Thrown _ w | OutOfFuel w | BadRef w => w
  end.

Definition ret {A} (a : A) : M T A := fun w => Returned a w.

Definition bind {A B} (m : M T A) (k : A -> M T B) : M T B :=
    fun w =>
      match m w with
      | Returned a w' => k a w'
      | Thrown e w' => Thrown e w'
      | OutOfFuel w' => OutOfFuel w'
      | BadRef w' => BadRef w'
      end.

Definition throw {A} (e : ApiError) : M T A := fun w => Thrown e w.

Definition out_of_fuel {A} : M T A := fun w => OutOfFuel w.
End Monad.

Notation "'let*' x := m 'in' k" := (bind m (fun x => k))
  (at level 10, x name, m at level 100, k at level 200, only parsing).
Notation "m >> k" := (bind m (fun _ => k))
  (at level 100, k at level 200, right associativity, only parsing).

Section Store.
Context {T : Type}.

Definition log (ev : Event T) : M T unit :=
    fun w => Returned tt (mkWorld (heap w) (trace w ++ [ev])).

  (** Reading an object through a reference. *)
Definition deref (o : Ref) : M T (ObserverObj T) :=
    fun w =>
      match heap w !! o with
      | Some this => Returned this w
      | None => BadRef w
      end.

Definition get_handlers (o : Ref) : M T (Handler.t T) :=
    let* this := deref o in ret (handlers this).

Definition get_isUnsubscribed (o : Ref) : M T bool :=
    let* this := deref o in ret (isUnsubscribed this).

Definition get__unsubscribe (o : Ref) : M T (option (Code T)) :=
    let* this := deref o in ret (_unsubscribe this).

  (** Writing a field. *)
Definition store (o : Ref) (this : ObserverObj T) : M T unit :=
    fun w => Returned tt (mkWorld (<[o := this]> (heap w)) (trace w)).

Definition set_isUnsubscribed (o : Ref) (b : bool) : M T unit :=
    let* this := deref o in
    store o (mkObserver (handlers this) b (_unsubscribe this)).

Definition set__unsubscribe (o : Ref) (f : option (Code T)) : M T unit :=
    let* this := deref o in
    store o (mkObserver (handlers this) (isUnsubscribed this) f).
End Store.

(** ** class Observer<T> *)
Module Observer.
Section Methods.
Context {T : Type}.

  (** How a callback body is run; instantiated by [invoke] below. *)
Variable call : Code T -> M T unit.

  (** [constructor(handlers)]: a new object with [isUnsubscribed = false] and
      [_unsubscribe] undefined. *)
Definition new (handlers : Handler.t T) : M T Ref :=
    fun w =>
      Returned (length (heap w))
               (mkWorld (heap w ++ [mkObserver handlers false None]) (trace w)).

  (** [unsubscribe()], lines 44-49. *)
Definition unsubscribe (this : Ref) : M T unit :=
    set_isUnsubscribed this true >>
    let* td := get__unsubscribe this in
    match td with
    | Some f => log (Teardown this) >> call f
    | None => ret tt
    end.

  (** [next(value)], lines 20-24. *)
Definition next (this : Ref) (value : T) : M T unit :=
    let* h := get_handlers this in
    let* u := get_isUnsubscribed this in
    match Handler.next h with
    | Some f =>
        if negb u then log (HNext this value) >> call (f value) else ret tt
    | None => ret tt
    end.

  (** [error(error)], lines 26-33. *)
Definition error (this : Ref) (error : ApiError) : M T unit :=
    let* u := get_isUnsubscribed this in
    if negb u then
      let* h := get_handlers this in
      match Handler.error h with
      | Some f => log (HError this error) >> call (f error)
      | None => ret tt
      end >>
      unsubscribe this
    else ret tt.

  (** [complete()], lines 35-42. *)
Definition complete (this : Ref) : M T unit :=
    let* u := get_isUnsubscribed this in
    if negb u then
      let* h := get_handlers this in
      match Handler.complete h with
      | Some f => log (HComplete this) >> call f
      | None => ret tt
      end >>
      unsubscribe this
    else ret tt.

End Methods.
End Observer.

(** ** Running user code *)
Section Run.
Context {T : Type}.
Variable call : Code T -> M T unit.

(** One statement of a callback body. *)
Definition do_cmd (c : Cmd T) : M T unit :=
  match c with
  | CNext o v => Observer.next call o v
  | CError o e => Observer.error call o e
  | CComplete o => Observer.complete call o
  | CUnsubscribe o => Observer.unsubscribe call o
  | CThrow e => throw e
  | CLog s => log (Console s)
  end.

(** A body is run statement by statement; a throw abandons the rest. *)
Fixpoint run_code (c : Code T) : M T unit :=
  match c with
  | [] => ret tt
  | x :: rest => do_cmd x >> run_code rest
  end.
End Run.

(** Entering a callback costs one unit of fuel, so [fuel] bounds how deeply
    callbacks nest (the JavaScript call stack). *)
Fixpoint invoke {T : Type} (fuel : nat) (c : Code T) : M T unit :=
  match fuel with
  | O => out_of_fuel
  | S fuel' => run_code (invoke fuel') c
  end.

(** ** class Observable<T> *)
Module Observable.

(** What one run of the producer function [(observer) => () => void] does:
    the statements it executes and the teardown closure it returns. *)
Record Producer (T : Type) : Type := mkProducer {
  body : Code T;
  teardown : Code T
}.
Arguments mkProducer {T} body teardown.
Arguments body {T} p : rename.
Arguments teardown {T} p : rename.

(** The object itself: its only field is the producer function. *)
Record t (T : Type) : Type := mk {
  _subscribe : Ref -> Producer T
}.
Arguments mk {T} _subscribe.
Arguments _subscribe {T} this observer : rename.

(** The handle [{ unsubscribe() { observer.unsubscribe(); } }] closes over the
    observer. *)
Record Subscription : Type := mkSubscription {
  observer : Ref
}.

Section Methods.
Context {T : Type}.
Variable call : Code T -> M T unit.

(** [static from<U>(values: U[])], lines 59-68. *)
Definition from (values : list T) : t T :=
  mk (fun observer =>
        mkProducer
          (map (fun value => CNext observer value) values
             ++ [CComplete observer])
          [CLog "unsubscribed"]).

(** [subscribe(handlers)], lines 70-79: the right-hand side of the
    assignment to [observer._unsubscribe] runs the producer first. *)
Definition subscribe (this : t T) (handlers : Handler.t T)
  : M T Subscription :=
  let* observer := Observer.new handlers in
  let p := _subscribe this observer in
  call (body p) >>
  set__unsubscribe observer (Some (teardown p)) >>
  ret (mkSubscription observer).

(** The handle's [unsubscribe()]. *)
Definition Subscription_unsubscribe (s : Subscription) : M T unit :=
  Observer.unsubscribe call (observer s).

End Methods.
End Observable.

(** * Observations

    The vocabulary in which the properties below are stated. *)

(** ** Reading the trace *)
Section Traces.
Context {T : Type}.

(** Entries of the trace that are invocations of one of [o]'s handlers. *)
Definition is_handler_event (o : Ref) (ev : Event T) : bool :=
  match ev with
  | HNext o' _ | HError o' _ | HComplete o' => Nat.eqb o' o
  | Teardown _ | Console _ => false
  end.

(** Entries of the trace that are invocations of [o]'s teardown. *)
Definition is_teardown_event (o : Ref) (ev : Event T) : bool :=
  match ev with
  | Teardown o' => Nat.eqb o' o
  | _ => false
  end.

Definition handler_calls (o : Ref) (tr : list (Event T)) : list (Event T) :=
  List.filter (is_handler_event o) tr.

Definition teardown_calls (o : Ref) (tr : list (Event T)) : list (Event T) :=
  List.filter (is_teardown_event o) tr.

(** ** What running code can and cannot change

    [evolves w w'] collects everything that holds between a world and any
    world reached from it by running methods and callbacks: no object is
    lost; the [handlers] and [_unsubscribe] of an existing object are never
    written; [isUnsubscribed] only goes from false to true; the trace only
    grows; an observer that is already unsubscribed sees no further handler
    invocation, and one without a registered teardown sees no teardown
    invocation. *)
Record evolves (w w' : World T) : Prop := mkEvolves {
  ev_length : length (heap w) <= length (heap w');
  ev_trace : exists k, trace w' = trace w ++ k;
  ev_obj : forall o this, heap w !! o = Some this ->
    exists this', heap w' !! o = Some this'
      /\ handlers this' = handlers this
      /\ _unsubscribe this' = _unsubscribe this
      /\ (isUnsubscribed this = true ->
            isUnsubscribed this' = true
            /\ handler_calls o (trace w') = handler_calls o (trace w))
      /\ (_unsubscribe this = None ->
            teardown_calls o (trace w') = teardown_calls o (trace w))
}.

End Traces.

(** ** The state machine of one subscription: ACTIVE until the flag is set *)
Definition terminated {T} (w : World T) (o : Ref) : bool :=
  match heap w !! o with
  | Some this => isUnsubscribed this
  | None => false
  end.

(** The teardown registered for [o], if any. *)
Definition registered {T} (w : World T) (o : Ref) : option (Code T) :=
  match heap w !! o with
  | Some this => _unsubscribe this
  | None => None
  end.

(** The world right after [this.isUnsubscribed = true]. *)
Definition mark_unsubscribed {T} (o : Ref) (w : World T) : World T :=
  match heap w !! o with
  | Some this =>
      mkWorld (<[o := mkObserver (handlers this) true (_unsubscribe this)]>
                 (heap w))
              (trace w)
  | None => w
  end.

(** ** Callbacks that only write to the console

    The handlers of the demonstration at the end of the source
    ([handleComplete], the teardown of [from]) are of this kind, as are the
    recording handlers of the spec's scenarios. *)
Definition is_log {T} (c : Cmd T) : bool :=
  match c with
  | CLog _ => true
  | _ => false
  end.

Definition only_logs {T} (c : Code T) : bool := forallb is_log c.

(** What such a callback writes. *)
Fixpoint console_of {T} (c : Code T) : list (Event T) :=
  match c with
  | [] => []
  | CLog s :: rest => Console s :: console_of rest
  | _ :: rest => console_of rest
  end.

(** A handler set all of whose supplied callbacks only log. *)
Definition passive {T} (h : Handler.t T) : Prop :=
  (forall f v, Handler.next h = Some f -> only_logs (f v) = true)
  /\ (forall f e, Handler.error h = Some f -> only_logs (f e) = true)
  /\ (forall f, Handler.complete h = Some f -> only_logs f = true).

(** The trace of delivering [v] to, and of completing, an active observer
    with passive handlers. *)
Definition next_events {T} (o : Ref) (h : Handler.t T) (v : T)
  : list (Event T) :=
  match Handler.next h with
  | Some f => HNext o v :: console_of (f v)
  | None => []
  end.

Definition complete_events {T} (o : Ref) (h : Handler.t T) : list (Event T) :=
  match Handler.complete h with
  | Some f => HComplete o :: console_of f
  | None => []
  end.

(** [N] calls of [unsubscribe()] in a row. *)
Fixpoint unsubscribe_times {T} (call : Code T -> M T unit) (o : Ref) (N : nat)
  : M T unit :=
  match N with
  | O => ret tt
  | S n => Observer.unsubscribe call o >> unsubscribe_times call o n
  end.

(** The world right after [new Observer(handlers)]. *)
Definition allocated {T} (h : Handler.t T) (w : World T) : World T :=
  mkWorld (heap w ++ [mkObserver h false None]) (trace w).

(** ** Independence of two subscriptions *)

(** Nothing of observer [b] has changed between [w] and [w']: neither its
    fields nor the invocations of its handlers and teardown. *)
Definition leaves_alone {T} (b : Ref) (w w' : World T) : Prop :=
  heap w' !! b = heap w !! b
  /\ handler_calls b (trace w') = handler_calls b (trace w)
  /\ teardown_calls b (trace w') = teardown_calls b (trace w).

(** A callback body that does not reach observer [b]. *)
Definition quiet {T} (fuel : nat) (b : Ref) (c : Code T) : Prop :=
  forall w, leaves_alone b w (world_of (invoke fuel c w)).

(** All user callbacks attached to an observer are quiet about [b]. *)
Definition callbacks_quiet {T} (fuel : nat) (b : Ref) (this : ObserverObj T)
  : Prop :=
  (forall f v, Handler.next (handlers this) = Some f -> quiet fuel b (f v))
  /\ (forall f e, Handler.error (handlers this) = Some f ->
                quiet fuel b (f e))
  /\ (forall f, Handler.complete (handlers this) = Some f -> quiet fuel b f)
  /\ (forall td, _unsubscribe this = Some td -> quiet fuel b td).

(** No method called on observer [a] changes anything of observer [b], as
    long as the callbacks attached to [a] do not reach [b] themselves. *)
Definition independent_of {T} (a b : Ref) : Prop :=
  forall fuel (w : World T) this,
    heap w !! a = Some this -> callbacks_quiet fuel b this ->
    forall v e,
      leaves_alone b w (world_of (Observer.next (invoke fuel) a v w))
      /\ leaves_alone b w (world_of (Observer.error (invoke fuel) a e w))
      /\ leaves_alone b w (world_of (Observer.complete (invoke fuel) a w))
      /\ leaves_alone b w (world_of (Observer.unsubscribe (invoke fuel) a w)).

(** ** Small concrete subscriptions on which the statements are exercised *)

(** A handler set whose three callbacks each write one line. *)
Definition recorder : Handler.t Z :=
  Handler.mk (Some (fun _ => [CLog "next"]))
             (Some (fun _ => [CLog "error"]))
             (Some [CLog "complete"]).

(** The handler set [{}]. *)
Definition no_handlers : Handler.t Z := Handler.mk None None None.

Definition empty_world : World Z := mkWorld [] [].

(** One active observer with [recorder] handlers and no teardown yet. *)
Definition one_active : World Z := allocated recorder empty_world.

(** The same observer after [error("x")]. *)
Definition after_error : World Z :=
  mkWorld [mkObserver recorder true None]
          [HError 0 (ErrString "x"); Console "error"].

(** The world [from([1,2,3]).subscribe({})] returns in, from [empty_world]. *)
Definition after_from : World Z :=
  mkWorld [mkObserver no_handlers true (Some [CLog "unsubscribed"])] [].

(** One active observer with no handlers at all and a registered teardown. *)
Definition bare_registered : World Z :=
  mkWorld [mkObserver no_handlers false (Some [CLog "released"])] [].

(** An Observable whose producer logs, throws, and would then emit. *)
Definition throwing : Observable.t Z :=
  Observable.mk (fun observer =>
    Observable.mkProducer
      [CLog "start"; CThrow (ErrString "boom"); CNext observer 1%Z]
      [CLog "released"]).

(** Handlers whose [error] and [complete] callbacks call back into
    [observer.next(42)] of observer 0. *)
Definition reentrant : Handler.t Z :=
  Handler.mk (Some (fun _ => [CLog "next"]))
             (Some (fun _ => [CLog "error"; CNext 0 42%Z]))
             (Some [CLog "complete"; CNext 0 42%Z]).

(** Two subscriptions to the same [from([10, 20])]. *)
Definition first_subscribed : World Z :=
  Eval vm_compute in
    world_of (Observable.subscribe (invoke 2) (Observable.from [10; 20]%Z)
                recorder empty_world).

Definition both_subscribed : World Z :=
  Eval vm_compute in
    world_of (Observable.subscribe (invoke 2) (Observable.from [10; 20]%Z)
                recorder first_subscribed).

(** The second scenario of the spec: a producer that calls
    [observer.error('x')] and then [observer.next(1)]. *)
Definition error_then_next : Observable.t Z :=
  Observable.mk (fun observer =>
    Observable.mkProducer
      [CError observer (ErrString "x"); CNext observer 1%Z]
      []).

(** A producer that emits, unsubscribes its own observer, and goes on. *)
Definition unsubscribes_midway : Observable.t Z :=
  Observable.mk (fun observer =>
    Observable.mkProducer
      [CNext observer 1%Z; CUnsubscribe observer; CNext observer 2%Z;
       CComplete observer]
      [CLog "released"]).

(** ** The calls a producer makes on its observer, as a stream *)

(** [o.error(_)] or [o.complete()]. *)
Definition is_terminal_on {T} (o : Ref) (x : Cmd T) : bool :=
  match x with
  | CError o' _ | CComplete o' => Nat.eqb o' o
  | _ => false
  end.

(** [o.next(_)], [o.error(_)] or [o.complete()]. *)
Definition is_delivery_on {T} (o : Ref) (x : Cmd T) : bool :=
  match x with
  | CNext o' _ | CError o' _ | CComplete o' => Nat.eqb o' o
  | _ => false
  end.

Definition delivery_on {T} (o : Ref) (c : Code T) : bool :=
  forallb (is_delivery_on o) c.

Definition has_terminal {T} (o : Ref) (c : Code T) : bool :=
  existsb (is_terminal_on o) c.

(** The trace of [error(e)] reaching a passive handler set, and of a
    teardown that only logs. *)
Definition error_events {T} (o : Ref) (h : Handler.t T) (e : ApiError)
  : list (Event T) :=
  match Handler.error h with
  | Some f => HError o e :: console_of (f e)
  | None => []
  end.

Definition teardown_events {T} (o : Ref) (td : option (Code T))
  : list (Event T) :=
  match td with
  | Some f => Teardown o :: console_of f
  | None => []
  end.

(** A teardown that is absent or only logs. *)
Definition benign {T} (td : option (Code T)) : Prop :=
  match td with
  | Some f => only_logs f = true
  | None => True
  end.

(** What a stream of calls on an active observer [this] at [o] is expected
    to leave on the trace: every [next] up to the first terminal call, that
    terminal call, the teardown, and nothing after. *)
Fixpoint stream_trace {T} (o : Ref) (this : ObserverObj T) (c : Code T)
  : list (Event T) :=
  match c with
  | [] => []
  | CNext _ v :: rest => next_events o (handlers this) v
                           ++ stream_trace o this rest
  | CError _ e :: _ => error_events o (handlers this) e
                         ++ teardown_events o (_unsubscribe this)
  | CComplete _ :: _ => complete_events o (handlers this)
                          ++ teardown_events o (_unsubscribe this)
  | _ :: rest => stream_trace o this rest
  end.

(** One active observer with [recorder] handlers and a registered teardown:
    a subscription whose producer has returned without terminating. *)
Definition live_registered : World Z :=
  mkWorld [mkObserver recorder false (Some [CLog "released"])] [].

(** Handlers whose [next] callback throws when it sees 2, and whose
    [error] callback logs and then throws. *)
Definition faulty : Handler.t Z :=
  Handler.mk (Some (fun v => if (v =? 2)%Z
                             then [CLog "bad"; CThrow (ErrString "boom")]
                             else [CLog "next"]))
             (Some (fun _ => [CLog "error"; CThrow (ErrString "boom")]))
             (Some [CLog "complete"]).

(** Handlers whose [next] callback unsubscribes observer 0 when it sees 2:
    handlers that reach the observer a producer such as [sharing] has
    shared with them. *)
Definition cancelling : Handler.t Z :=
  Handler.mk (Some (fun v => if (v =? 2)%Z
                             then [CLog "stop"; CUnsubscribe 0; CLog "bye"]
                             else [CLog "next"]))
             None
             (Some [CLog "complete"]).

(** The script pattern of the demonstration: subscribe, then unsubscribe
    through the handle. *)
Definition subscribe_then_unsubscribe {T} (call : Code T -> M T unit)
    (obs : Observable.t T) (h : Handler.t T) : M T unit :=
  let* subscription := Observable.subscribe call obs h in
  Observable.Subscription_unsubscribe call subscription.

(** Two subscriptions to one Observable, one after the other. *)
Definition subscribe_twice {T} (call : Code T -> M T unit)
    (obs : Observable.t T) (h1 h2 : Handler.t T)
  : M T Observable.Subscription :=
  Observable.subscribe call obs h1 >> Observable.subscribe call obs h2.

(** Everything [from(values).subscribe(h)] adds to the trace for the
    observer at [o], when the callbacks of [h] only log. *)
Definition from_events {T} (o : Ref) (h : Handler.t T) (values : list T)
  : list (Event T) :=
  flat_map (next_events o h) values ++ complete_events o h.

(** A producer that emits 1 and 2 and returns without terminating, as one
    that goes on emitting from a timer would. *)
Definition emits_two : Observable.t Z :=
  Observable.mk (fun observer =>
    Observable.mkProducer [CNext observer 1%Z; CNext observer 2%Z]
                          [CLog "released"]).

(** One active observer whose registered teardown logs and then throws. *)
Definition failing_teardown : World Z :=
  mkWorld
    [mkObserver recorder false
       (Some [CLog "releasing"; CThrow (ErrString "stuck")])] [].

(** One active observer whose registered teardown calls [unsubscribe()] on
    that same observer. *)
Definition self_unsubscribing : World Z :=
  mkWorld [mkObserver recorder false (Some [CUnsubscribe 0])] [].

(** ** [from], read as a loop

    What [from(values).subscribe({next, complete})] is expected to do, said
    without the Observer: for each value in order enter the [next] callback
    with it and run its body, then enter the [complete] callback and run its
    body. *)
Fixpoint deliver_each {T} (call : Code T -> M T unit) (o : Ref)
    (fn : T -> Code T) (values : list T) : M T unit :=
  match values with
  | [] => ret tt
  | v :: rest =>
      log (HNext o v) >> call (fn v) >> deliver_each call o fn rest
  end.

Definition deliver_then_complete {T} (call : Code T -> M T unit) (o : Ref)
    (fn : T -> Code T) (fc : Code T) (values : list T) : M T unit :=
  deliver_each call o fn values >> log (HComplete o) >> call fc.

(** A producer that stores its observer where the handlers can reach it
    ([let shared; new Observable(o => { shared = o; ... })]), then emits 1,
    2, 3 and completes. *)
Definition sharing : Observable.t Z :=
  Observable.mk (fun observer =>
    Observable.mkProducer
      [CNext observer 1%Z; CNext observer 2%Z; CNext observer 3%Z;
       CComplete observer]
      [CLog "released"]).

(** * Properties *)

Section TraceFacts.
Context {T : Type}.
Implicit Types (w : World T).

Lemma handler_calls_app o (a b : list (Event T)) :
  handler_calls o (a ++ b) = handler_calls o a ++ handler_calls o b.
Proof. apply List.filter_app. Qed.

Lemma teardown_calls_app o (a b : list (Event T)) :
  teardown_calls o (a ++ b) = teardown_calls o a ++ teardown_calls o b.
Proof. apply List.filter_app. Qed.

Lemma evolves_refl w : evolves w w.
Proof.
  split; [done | by exists []; rewrite app_nil_r |].
  intros o this H. exists this. naive_solver.
Qed.

Lemma evolves_trans w1 w2 w3 : evolves w1 w2 -> evolves w2 w3 -> evolves w1 w3.
Proof.
  intros [L1 [k1 K1] O1] [L2 [k2 K2] O2]. split.
  - lia.
  - exists (k1 ++ k2). by rewrite K2, K1, app_assoc.
  - intros o this H.
    destruct (O1 o this H) as (t2 & H2 & Hh & Hu & Hf & Ht).
    destruct (O2 o t2 H2) as (t3 & H3 & Hh' & Hu' & Hf' & Ht').
    exists t3. split; [done |]. split; [congruence |].
    split; [congruence |]. split.
    + intros F. destruct (Hf F) as [F2 E2]. destruct (Hf' F2) as [F3 E3].
      split; congruence.
    + intros N. rewrite Ht' by congruence. auto.
Qed.

(** Appending an event is harmless unless it is a handler invocation of an
    unsubscribed observer or a teardown invocation of an observer that has
    none. *)
Lemma evolves_log (ev : Event T) w :
  (forall o this, heap w !! o = Some this ->
     (isUnsubscribed this = true -> is_handler_event o ev = false)
     /\ (_unsubscribe this = None -> is_teardown_event o ev = false)) ->
  evolves w (mkWorld (heap w) (trace w ++ [ev])).
Proof.
  intros H. split; simpl; [done | by eexists |].
  intros o this Ho. exists this. destruct (H o this Ho) as [Hh Ht].
  split; [done |]. split; [done |]. split; [done |]. split.
  - intros F. split; [done |].
    rewrite handler_calls_app. unfold handler_calls at 2. simpl.
    rewrite Hh by done. by rewrite app_nil_r.
  - intros N. rewrite teardown_calls_app. unfold teardown_calls at 2. simpl.
    rewrite Ht by done. by rewrite app_nil_r.
Qed.

(** Setting the flag of an object. *)
Lemma evolves_set_flag o this w :
  heap w !! o = Some this ->
  evolves w (mkWorld
               (<[o := mkObserver (handlers this) true (_unsubscribe this)]>
                  (heap w))
               (trace w)).
Proof.
  intros Ho. split; simpl.
  - by rewrite length_insert.
  - exists []. by rewrite app_nil_r.
  - intros o' this' Ho'. destruct (decide (o = o')) as [<-|Hne].
    + assert (this' = this) as -> by congruence.
      eexists. split.
      * apply list_lookup_insert_eq. by eapply lookup_lt_Some.
      * simpl. naive_solver.
    + exists this'. rewrite list_lookup_insert_ne by done. naive_solver.
Qed.

End TraceFacts.


(** Unfolding the monad down to case analyses on the store. *)
Ltac unfold_methods :=
  unfold Observer.next, Observer.error, Observer.complete,
    Observer.unsubscribe, Observer.new, get_handlers, get_isUnsubscribed,
    get__unsubscribe, set_isUnsubscribed, set__unsubscribe, bind, ret, deref,
    store, log, throw, out_of_fuel.

(** ** Every method and every callback run is an evolution of the world *)
Section Preservation.
Context {T : Type}.
Variable call : Code T -> M T unit.
Hypothesis call_evolves : forall c w, evolves w (world_of (call c w)).

Lemma unsubscribe_evolves o (w : World T) :
  evolves w (world_of (Observer.unsubscribe call o w)).
Proof.
  unfold_methods. simpl.
  destruct (heap w !! o) as [this|] eqn:Ho; simpl; [| apply evolves_refl].
  rewrite list_lookup_insert_eq by (by eapply lookup_lt_Some). simpl.
  pose proof (evolves_set_flag o this w Ho) as Hset.
  destruct (_unsubscribe this) as [f|] eqn:Htd; simpl; [| done].
  set (w1 := mkWorld _ (trace w)) in *.
  set (w2 := mkWorld (heap w1) (trace w1 ++ [Teardown o])).
  assert (evolves w w2) as H2.
  { eapply evolves_trans; [exact Hset |]. apply evolves_log.
    intros o' this' Ho'. split; [done |]. intros Hnone. simpl.
    destruct (Nat.eqb_spec o o') as [<-|]; [| done].
    subst w1. simpl in Ho'.
    rewrite list_lookup_insert_eq in Ho' by (by eapply lookup_lt_Some).
    injection Ho' as <-. simpl in Hnone. congruence. }
  eapply evolves_trans; [exact H2 | apply call_evolves].
Qed.

Lemma next_evolves o v (w : World T) :
  evolves w (world_of (Observer.next call o v w)).
Proof.
  unfold_methods. simpl.
  destruct (heap w !! o) as [this|] eqn:Ho; simpl; [| apply evolves_refl].
  rewrite Ho. simpl.
  destruct (Handler.next (handlers this)) as [f|]; [| apply evolves_refl].
  destruct (isUnsubscribed this) eqn:Hu; simpl; [apply evolves_refl |].
  eapply evolves_trans; [| apply call_evolves].
  apply evolves_log. intros o' this' Ho'. split; [| done]. simpl.
  destruct (Nat.eqb_spec o o') as [<-|]; [congruence | done].
Qed.

(** The part shared by [error] and [complete]: an optional handler of an
    active observer is entered, then [unsubscribe] runs. *)
Lemma terminal_evolves o this (ev : Event T) (f : option (Code T))
    (w : World T) :
  heap w !! o = Some this -> isUnsubscribed this = false ->
  (forall o', is_teardown_event o' ev = false) ->
  (forall o', is_handler_event o' ev = true -> o' = o) ->
  evolves w
    (world_of
       (bind (match f with
              | Some c => bind (log ev) (fun _ => call c)
              | None => ret tt
              end)
             (fun _ => Observer.unsubscribe call o) w)).
Proof.
  intros Ho Hu Htd Hh. unfold bind at 1.
  assert (forall r : Outcome T unit, evolves w (world_of r) ->
            evolves w (world_of
              match r with
              | Returned _ w' => Observer.unsubscribe call o w'
              | Thrown e w' => Thrown e w'
              | OutOfFuel w' => OutOfFuel w'
              | BadRef w' => BadRef w'
              end)) as Hk.
  { intros [a w'|e w'|w'|w'] Hr; simpl in *; try done.
    eapply evolves_trans; [exact Hr | apply unsubscribe_evolves]. }
  apply Hk. destruct f as [c|]; [| apply evolves_refl].
  unfold bind, log. eapply evolves_trans; [| apply call_evolves].
  apply evolves_log. intros o' this' Ho'. split.
  - intros Hu'. destruct (is_handler_event o' ev) eqn:E; [| done].
    apply Hh in E. subst o'. congruence.
  - intros _. apply Htd.
Qed.

Lemma error_evolves o e (w : World T) :
  evolves w (world_of (Observer.error call o e w)).
Proof.
  unfold Observer.error, get_isUnsubscribed, get_handlers.
  unfold bind at 1 2, deref, ret.
  destruct (heap w !! o) as [this|] eqn:Ho; simpl; [| apply evolves_refl].
  destruct (isUnsubscribed this) eqn:Hu; simpl; [apply evolves_refl |].
  unfold bind at 1 2. rewrite Ho.
  assert (forall o', is_handler_event o' (HError (T:=T) o e) = true -> o' = o)
    as Hh by (simpl; intros o' E; by apply Nat.eqb_eq in E).
  destruct (Handler.error (handlers this)) as [f|].
  - by apply (terminal_evolves o this (HError o e) (Some (f e))).
  - by apply (terminal_evolves o this (HError o e) None).
Qed.

Lemma complete_evolves o (w : World T) :
  evolves w (world_of (Observer.complete call o w)).
Proof.
  unfold Observer.complete, get_isUnsubscribed, get_handlers.
  unfold bind at 1 2, deref, ret.
  destruct (heap w !! o) as [this|] eqn:Ho; simpl; [| apply evolves_refl].
  destruct (isUnsubscribed this) eqn:Hu; simpl; [apply evolves_refl |].
  unfold bind at 1 2. rewrite Ho.
  apply (terminal_evolves o this (HComplete o)
           (Handler.complete (handlers this))); try done.
  simpl. intros o' E. by apply Nat.eqb_eq in E.
Qed.

Lemma do_cmd_evolves c (w : World T) :
  evolves w (world_of (do_cmd call c w)).
Proof.
  destruct c; simpl.
  - apply next_evolves.
  - apply error_evolves.
  - apply complete_evolves.
  - apply unsubscribe_evolves.
  - apply evolves_refl.
  - apply evolves_log. by intros.
Qed.

Lemma run_code_evolves c (w : World T) :
  evolves w (world_of (run_code call c w)).
Proof.
  revert w. induction c as [|x rest IH]; intros w; simpl.
  - apply evolves_refl.
  - unfold bind. pose proof (do_cmd_evolves x w) as Hx.
    destruct (do_cmd call x w) as [a w'|e w'|w'|w']; simpl in *; try done.
    eapply evolves_trans; [exact Hx | apply IH].
Qed.

End Preservation.

Lemma invoke_evolves {T} fuel (c : Code T) (w : World T) :
  evolves w (world_of (invoke fuel c w)).
Proof.
  revert c w. induction fuel as [|fuel IH]; intros c w; simpl.
  - apply evolves_refl.
  - by apply run_code_evolves.
Qed.

Section Terminated.
Context {T : Type}.
Implicit Types (w : World T) (o : Ref).

Lemma evolves_terminated w w' o :
  evolves w w' -> terminated w o = true ->
  terminated w' o = true
  /\ handler_calls o (trace w') = handler_calls o (trace w).
Proof.
  intros [_ _ Hobj]. unfold terminated.
  destruct (heap w !! o) as [this|] eqn:Ho; [| done]. intros Hu.
  destruct (Hobj o this Ho) as (this' & -> & _ & _ & Hf & _). by apply Hf.
Qed.

Lemma evolves_registered w w' o :
  evolves w w' -> is_Some (heap w !! o) -> registered w' o = registered w o.
Proof.
  intros [_ _ Hobj] [this Ho]. unfold registered. rewrite Ho.
  by destruct (Hobj o this Ho) as (this' & -> & _ & -> & _).
Qed.

Lemma evolves_no_teardown w w' o :
  evolves w w' -> is_Some (heap w !! o) -> registered w o = None ->
  teardown_calls o (trace w') = teardown_calls o (trace w).
Proof.
  intros [_ _ Hobj] [this Ho]. unfold registered. rewrite Ho. intros Hn.
  destruct (Hobj o this Ho) as (this' & _ & _ & _ & _ & Ht). by apply Ht.
Qed.


Lemma evolves_handlers w w' o this :
  evolves w w' -> heap w !! o = Some this ->
  exists u, heap w' !! o
            = Some (mkObserver (handlers this) u (_unsubscribe this))
            /\ (isUnsubscribed this = true -> u = true).
Proof.
  intros [_ _ Hobj] Ho.
  destruct (Hobj o this Ho) as ([h u td] & -> & Hh & Htd & Hf & _).
  simpl in *. subst. exists u. split; [done |]. intros F. by apply Hf.
Qed.

Lemma terminated_mark o w :
  is_Some (heap w !! o) -> terminated (mark_unsubscribed o w) o = true.
Proof.
  intros [this Ho]. unfold terminated, mark_unsubscribed. rewrite Ho. simpl.
  by rewrite list_lookup_insert_eq by (by eapply lookup_lt_Some).
Qed.


(** On a terminated observer the three delivery methods change nothing and
    return normally, whatever the callbacks are. *)
Lemma next_terminated (call : Code T -> M T unit) o v w :
  terminated w o = true -> Observer.next call o v w = Returned tt w.
Proof.
  unfold terminated. unfold_methods.
  destruct (heap w !! o) as [this|] eqn:Ho; [| done]. simpl. rewrite Ho.
  simpl. intros ->. by destruct (Handler.next _).
Qed.

Lemma error_terminated (call : Code T -> M T unit) o e w :
  terminated w o = true -> Observer.error call o e w = Returned tt w.
Proof.
  unfold terminated. unfold_methods.
  destruct (heap w !! o) as [this|] eqn:Ho; [| done]. simpl. by intros ->.
Qed.

Lemma complete_terminated (call : Code T -> M T unit) o w :
  terminated w o = true -> Observer.complete call o w = Returned tt w.
Proof.
  unfold terminated. unfold_methods.
  destruct (heap w !! o) as [this|] eqn:Ho; [| done]. simpl. by intros ->.
Qed.

(** [unsubscribe] is: set the flag, then run the teardown if there is one. *)
Lemma unsubscribe_unfold (call : Code T -> M T unit) o w :
  Observer.unsubscribe call o w =
  match heap w !! o with
  | None => BadRef w
  | Some this =>
      match _unsubscribe this with
      | None => Returned tt (mark_unsubscribed o w)
      | Some f =>
          call f (mkWorld (heap (mark_unsubscribed o w))
                          (trace w ++ [Teardown o]))
      end
  end.
Proof.
  unfold mark_unsubscribed. unfold_methods.
  destruct (heap w !! o) as [this|] eqn:Ho; [| done]. simpl.
  rewrite list_lookup_insert_eq by (by eapply lookup_lt_Some). simpl.
  by destruct (_unsubscribe this).
Qed.

End Terminated.

(** From here on [invoke] is unfolded by hand only. *)
Arguments invoke : simpl never.

(** ** Callbacks that only log *)
Section Logs.
Context {T : Type}.
Implicit Types (w : World T) (o : Ref) (c : Code T).

Lemma run_code_app (call : Code T -> M T unit) c1 c2 w :
  run_code call (c1 ++ c2) w
  = bind (run_code call c1) (fun _ => run_code call c2) w.
Proof.
  revert w. induction c1 as [|x c1 IH]; intros w; simpl; [done |].
  unfold bind in *. destruct (do_cmd call x w); auto.
Qed.

Lemma run_code_only_logs (call : Code T -> M T unit) c w :
  only_logs c = true ->
  run_code call c w = Returned tt (mkWorld (heap w) (trace w ++ console_of c)).
Proof.
  revert w. induction c as [|x c IH]; intros w Hc; simpl.
  - rewrite app_nil_r. by destruct w.
  - simpl in Hc. apply andb_prop in Hc as [Hx Hc].
    destruct x; try done. simpl. unfold bind, log.
    rewrite IH by done. simpl. by rewrite <- app_assoc.
Qed.

Lemma invoke_only_logs fuel c w :
  only_logs c = true ->
  invoke (S fuel) c w
  = Returned tt (mkWorld (heap w) (trace w ++ console_of c)).
Proof. apply run_code_only_logs. Qed.

End Logs.

(** ** [subscribe], step by step *)
Section Subscribe.
Context {T : Type}.
Implicit Types (w : World T) (o : Ref) (h : Handler.t T).

Import Observable.

Lemma allocated_lookup h w :
  heap (allocated h w) !! length (heap w) = Some (mkObserver h false None).
Proof. simpl. by rewrite lookup_app_r, Nat.sub_diag by lia. Qed.

Lemma evolves_allocated_world h w : evolves w (allocated h w).
Proof.
  split; simpl.
  - rewrite length_app. lia.
  - exists []. by rewrite app_nil_r.
  - intros o this Ho. exists this.
    rewrite lookup_app_l by (by eapply lookup_lt_Some). naive_solver.
Qed.

(** Storing the teardown in a freshly allocated observer does not disturb
    the objects that existed before. *)
Lemma evolves_store_fresh w w1 o this :
  evolves w w1 -> length (heap w) <= o ->
  evolves w (mkWorld (<[o := this]> (heap w1)) (trace w1)).
Proof.
  intros [HL HT HO] Hfresh. split; simpl.
  - rewrite length_insert. lia.
  - done.
  - intros o' this' Ho'.
    assert (o' < length (heap w)) by (by eapply lookup_lt_Some).
    rewrite list_lookup_insert_ne by lia. by apply HO.
Qed.

Lemma subscribe_unfold (call : Code T -> M T unit) (obs : Observable.t T)
    h w :
  subscribe call obs h w =
  let o := length (heap w) in
  match call (body (_subscribe obs o)) (allocated h w) with
  | Returned _ w1 =>
      match heap w1 !! o with
      | Some this =>
          Returned (mkSubscription o)
            (mkWorld
               (<[o := mkObserver (handlers this) (isUnsubscribed this)
                         (Some (teardown (_subscribe obs o)))]> (heap w1))
               (trace w1))
      | None => BadRef w1
      end
  | Thrown e w1 => Thrown e w1
  | OutOfFuel w1 => OutOfFuel w1
  | BadRef w1 => BadRef w1
  end.
Proof.
  unfold subscribe, allocated. unfold_methods. simpl.
  destruct (call _ _) as [[] w1|e w1|w1|w1]; try done.
  by destruct (heap w1 !! length (heap w)).
Qed.

Section WithCall.
Variable call : Code T -> M T unit.
Hypothesis call_evolves : forall c w, evolves w (world_of (call c w)).

(** When the producer returns, so does [subscribe]: with the handle of the
    new observer, in the producer's final world with the teardown stored. *)
Lemma subscribe_returns (obs : Observable.t T) h w w1 :
  let o := length (heap w) in
  call (body (_subscribe obs o)) (allocated h w) = Returned tt w1 ->
  exists u,
    heap w1 !! o = Some (mkObserver h u None)
    /\ subscribe call obs h w
       = Returned (mkSubscription o)
           (mkWorld
              (<[o := mkObserver h u (Some (teardown (_subscribe obs o)))]>
                 (heap w1))
              (trace w1)).
Proof.
  intros o Hrun. pose proof (call_evolves (body (_subscribe obs o))
                               (allocated h w)) as Hev.
  rewrite Hrun in Hev. simpl in Hev.
  destruct (evolves_handlers _ _ o _ Hev (allocated_lookup h w))
    as (u & Hu & _).
  exists u. split; [done |]. rewrite subscribe_unfold. cbv zeta.
  subst o. rewrite Hrun. simpl in Hu. by rewrite Hu.
Qed.

Lemma subscribe_evolves (obs : Observable.t T) h w :
  evolves w (world_of (subscribe call obs h w)).
Proof.
  rewrite subscribe_unfold. simpl.
  set (o := length (heap w)).
  pose proof (call_evolves (body (_subscribe obs o)) (allocated h w)) as Hev.
  assert (forall w1, evolves (allocated h w) w1 -> evolves w w1) as Hw.
  { intros w1. apply evolves_trans, evolves_allocated_world. }
  destruct (call _ _) as [[] w1|e w1|w1|w1]; simpl in *; auto.
  destruct (heap w1 !! o); simpl; auto.
  apply evolves_store_fresh; auto.
Qed.

End WithCall.
End Subscribe.

(** ** [Observable.from] with passive handlers, computed exactly *)
Section From.
Context {T : Type}.
Implicit Types (w : World T) (o : Ref) (h : Handler.t T).

Import Observable.

Lemma next_active_passive fuel o this v w :
  heap w !! o = Some this -> isUnsubscribed this = false ->
  passive (handlers this) ->
  Observer.next (invoke (S fuel)) o v w
  = Returned tt (mkWorld (heap w)
                         (trace w ++ next_events o (handlers this) v)).
Proof.
  intros Ho Hu (Hn & _ & _). unfold next_events. unfold_methods.
  rewrite Ho. simpl. rewrite Ho. simpl. rewrite Hu. simpl.
  destruct (Handler.next (handlers this)) as [f|] eqn:Hf.
  - rewrite invoke_only_logs by eauto. simpl. by rewrite <- app_assoc.
  - rewrite app_nil_r. by destruct w.
Qed.

Lemma emit_all_passive fuel o this (values : list T) w :
  heap w !! o = Some this -> isUnsubscribed this = false ->
  passive (handlers this) ->
  run_code (invoke (S fuel)) (map (fun value => CNext o value) values) w
  = Returned tt
      (mkWorld (heap w)
               (trace w ++ flat_map (next_events o (handlers this)) values)).
Proof.
  intros Ho Hu Hp. revert w Ho.
  induction values as [|v values IH]; intros w Ho; simpl.
  - rewrite app_nil_r. by destruct w.
  - unfold bind. rewrite (next_active_passive fuel o this) by done.
    rewrite IH by done. simpl. by rewrite <- app_assoc.
Qed.

Lemma complete_active_passive fuel o this w :
  heap w !! o = Some this -> isUnsubscribed this = false ->
  _unsubscribe this = None -> passive (handlers this) ->
  Observer.complete (invoke (S fuel)) o w
  = Returned tt
      (mkWorld (<[o := mkObserver (handlers this) true None]> (heap w))
               (trace w ++ complete_events o (handlers this))).
Proof.
  intros Ho Hu Htd (_ & _ & Hc). unfold complete_events.
  unfold Observer.complete, get_isUnsubscribed, get_handlers.
  unfold bind at 1 2, deref, ret. rewrite Ho. simpl. rewrite Hu. simpl.
  unfold bind at 1 2 3. rewrite Ho. simpl.
  destruct (Handler.complete (handlers this)) as [f|] eqn:Hf.
  - unfold bind, log. rewrite invoke_only_logs by eauto.
    rewrite unsubscribe_unfold. simpl. rewrite Ho, Htd.
    unfold mark_unsubscribed. simpl. rewrite Ho, Htd. simpl.
    by rewrite <- app_assoc.
  - unfold ret. rewrite unsubscribe_unfold. rewrite Ho, Htd.
    unfold mark_unsubscribed. rewrite Ho, Htd, app_nil_r. done.
Qed.

(** The whole of [from(values).subscribe(h)]: every value is delivered in
    order, then the stream completes; the teardown is stored but has not
    run. *)
Lemma from_subscribe_passive fuel (values : list T) h w :
  passive h ->
  let o := length (heap w) in
  subscribe (invoke (S (S fuel))) (from values) h w
  = Returned (mkSubscription o)
      (mkWorld
         (heap w ++ [mkObserver h true (Some [CLog "unsubscribed"])])
         (trace w ++ flat_map (next_events o h) values
                  ++ complete_events o h)).
Proof.
  intros Hp o. rewrite subscribe_unfold. cbv zeta. fold o.
  change (invoke (S (S fuel)) ?c) with (run_code (invoke (S fuel)) c).
  simpl body. rewrite run_code_app. unfold bind.
  pose proof (allocated_lookup h w) as Ho. fold o in Ho.
  rewrite (emit_all_passive fuel o _ values _ Ho) by done.
  simpl run_code. unfold bind.
  rewrite (complete_active_passive fuel o (mkObserver h false None))
    by done.
  simpl. rewrite list_lookup_insert_eq
    by (rewrite length_app; simpl; unfold o; lia).
  simpl. rewrite list_insert_insert_eq. f_equal. f_equal.
  - unfold o. rewrite <- (Nat.add_0_r (length (heap w))).
    by rewrite insert_app_r.
  - by rewrite <- app_assoc.
Qed.

End From.

(** ** Reaching the terminated state *)
Section Terminating.
Context {T : Type}.
Implicit Types (w : World T) (o : Ref).

Lemma bind_returned {A B} (m : M T A) (k : A -> M T B) w b w' :
  bind m k w = Returned b w' ->
  exists a w1, m w = Returned a w1 /\ k a w1 = Returned b w'.
Proof. unfold bind. destruct (m w) as [a w1| | |]; try done. eauto. Qed.

(** What [bind] adds to the world its first part stopped in is what the
    continuation did. *)
Lemma bind_evolves {A B} (m : M T A) (k : A -> M T B) w :
  (forall a w1, evolves w1 (world_of (k a w1))) ->
  evolves (world_of (m w)) (world_of (bind m k w)).
Proof.
  intros Hk. unfold bind.
  destruct (m w) as [a w1| | |]; simpl; auto using evolves_refl.
Qed.

Variable call : Code T -> M T unit.
Hypothesis call_evolves : forall c w, evolves w (world_of (call c w)).

(** However [unsubscribe] ends (the teardown may throw), the observer is
    terminated afterwards and none of its handlers was entered. *)
Lemma unsubscribe_terminates o w :
  is_Some (heap w !! o) ->
  let w' := world_of (Observer.unsubscribe call o w) in
  terminated w' o = true
  /\ handler_calls o (trace w') = handler_calls o (trace w).
Proof.
  intros Hsome. pose proof (terminated_mark o w Hsome) as Hm.
  destruct Hsome as [this Ho]. rewrite unsubscribe_unfold, Ho.
  destruct (_unsubscribe this) as [f|] eqn:Htd; simpl.
  - set (w2 := mkWorld _ (trace w ++ [Teardown o])).
    assert (terminated w2 o = true) as H2 by done.
    destruct (evolves_terminated w2 _ o (call_evolves f w2) H2) as [Ht Hh].
    split; [done |]. rewrite Hh. subst w2. simpl.
    rewrite handler_calls_app. simpl. apply app_nil_r.
  - split; [done |]. unfold mark_unsubscribed. by rewrite Ho.
Qed.

Lemma error_returned_terminated o e w w' :
  Observer.error call o e w = Returned tt w' -> terminated w' o = true.
Proof.
  unfold Observer.error, get_isUnsubscribed, get_handlers.
  unfold bind at 1 2, deref, ret.
  destruct (heap w !! o) as [this|] eqn:Ho; simpl; [| done].
  destruct (isUnsubscribed this) eqn:Hu; simpl.
  - intros [= <-]. unfold terminated. by rewrite Ho.
  - intros H. apply bind_returned in H as (hs & w0 & _ & H).
    apply bind_returned in H as (a & w1 & _ & H).
    destruct (heap w1 !! o) as [this1|] eqn:Ho1.
    + pose proof (unsubscribe_terminates o w1 (mk_is_Some _ _ Ho1)) as Hu1.
      rewrite H in Hu1. apply Hu1.
    + by rewrite unsubscribe_unfold, Ho1 in H.
Qed.

Lemma complete_returned_terminated o w w' :
  Observer.complete call o w = Returned tt w' -> terminated w' o = true.
Proof.
  unfold Observer.complete, get_isUnsubscribed, get_handlers.
  unfold bind at 1 2, deref, ret.
  destruct (heap w !! o) as [this|] eqn:Ho; simpl; [| done].
  destruct (isUnsubscribed this) eqn:Hu; simpl.
  - intros [= <-]. unfold terminated. by rewrite Ho.
  - intros H. apply bind_returned in H as (hs & w0 & _ & H).
    apply bind_returned in H as (a & w1 & _ & H).
    destruct (heap w1 !! o) as [this1|] eqn:Ho1.
    + pose proof (unsubscribe_terminates o w1 (mk_is_Some _ _ Ho1)) as Hu1.
      rewrite H in Hu1. apply Hu1.
    + by rewrite unsubscribe_unfold, Ho1 in H.
Qed.

End Terminating.

(** ** The terminated state is final and silent *)
Section Inert.
Context {T : Type}.
Implicit Types (w : World T) (o : Ref).

Lemma terminated_inert o w fuel (c : Code T) :
  terminated w o = true ->
  let w' := world_of (invoke fuel c w) in
  terminated w' o = true
  /\ handler_calls o (trace w') = handler_calls o (trace w)
  /\ forall (call : Code T -> M T unit) v e,
       Observer.next call o v w' = Returned tt w'
       /\ Observer.error call o e w' = Returned tt w'
       /\ Observer.complete call o w' = Returned tt w'.
Proof.
  intros Ht w'.
  destruct (evolves_terminated w w' o (invoke_evolves fuel c w) Ht)
    as [Ht' Hh].
  split; [done |]. split; [done |]. intros call v e.
  by rewrite next_terminated, error_terminated, complete_terminated.
Qed.

End Inert.

(** C3: the unsubscribed flag of a new Observer is false; once an [error]
    or [complete] call on an Observer has returned, the flag is true, it
    stays true whatever code runs afterwards (any callbacks, any methods,
    further subscriptions), none of the Observer's handlers is entered
    again, and every later [next]/[error]/[complete] on it returns normally
    without changing anything. *)
Theorem terminated_observer_is_inert {T} (fuel : nat) (o : Ref)
    (w w' : World T) :
  (exists e, Observer.error (invoke fuel) o e w = Returned tt w')
  \/ Observer.complete (invoke fuel) o w = Returned tt w' ->
  (forall (h : Handler.t T) (w0 : World T),
     Observer.new h w0 = Returned (length (heap w0)) (allocated h w0)
     /\ terminated (allocated h w0) (length (heap w0)) = false)
  /\ terminated w' o = true
  /\ (forall fuel' (c : Code T),
        let w'' := world_of (invoke fuel' c w') in
        terminated w'' o = true
        /\ handler_calls o (trace w'') = handler_calls o (trace w')
        /\ forall (call : Code T -> M T unit) v e,
             Observer.next call o v w'' = Returned tt w''
             /\ Observer.error call o e w'' = Returned tt w''
             /\ Observer.complete call o w'' = Returned tt w'')
  /\ (forall fuel' (obs : Observable.t T) (h : Handler.t T),
        let w'' := world_of (Observable.subscribe (invoke fuel') obs h w') in
        terminated w'' o = true
        /\ handler_calls o (trace w'') = handler_calls o (trace w')).
Proof.
  intros Hfired.
  assert (terminated w' o = true) as Ht.
  { destruct Hfired as [[e He]|Hc].
    - eapply error_returned_terminated; [apply invoke_evolves | exact He].
    - eapply complete_returned_terminated; [apply invoke_evolves | exact Hc]. }
  split; [| split; [done | split]].
  - intros h w0. split; [done |]. unfold terminated.
    by rewrite allocated_lookup.
  - intros fuel' c. by apply terminated_inert.
  - intros fuel' obs h w''. apply (evolves_terminated w'); [| done].
    apply subscribe_evolves. apply invoke_evolves.
Qed.

Lemma terminated_observer_is_inert_witness :
  Observer.error (invoke 2) 0 (ErrString "x") one_active
  = Returned tt after_error
  /\ terminated after_error 0 = true
  /\ Observer.next (invoke 2) 0 7%Z after_error = Returned tt after_error.
Proof.
  assert (Observer.error (invoke 2) 0 (ErrString "x") one_active
          = Returned tt after_error) as H by reflexivity.
  split; [exact H |].
  destruct (terminated_observer_is_inert 2 0 one_active after_error
              (or_introl (ex_intro _ (ErrString "x") H)))
    as (_ & Ht & Hinert & _).
  split; [exact Ht |].
  destruct (Hinert 1 []) as (_ & _ & Hm).
  exact (proj1 (Hm (invoke 2) 7%Z (ErrString "y"))).
Defined.

(** C6: from the moment [unsubscribe()] is called on an Observer (however
    the teardown it runs ends) the Observer is terminated, and whatever the
    producer goes on to execute, no handler of that Observer is entered
    again: the handler invocations on the trace stay those made before the
    call, and each later [next]/[error]/[complete] is a silent no-op. *)
Theorem unsubscribe_halts_delivery {T} (fuel : nat) (o : Ref) (w : World T) :
  is_Some (heap w !! o) ->
  let w1 := world_of (Observer.unsubscribe (invoke fuel) o w) in
  terminated w1 o = true
  /\ handler_calls o (trace w1) = handler_calls o (trace w)
  /\ forall fuel' (rest : Code T),
       let w2 := world_of (invoke fuel' rest w1) in
       terminated w2 o = true
       /\ handler_calls o (trace w2) = handler_calls o (trace w)
       /\ forall (call : Code T -> M T unit) v e,
            Observer.next call o v w2 = Returned tt w2
            /\ Observer.error call o e w2 = Returned tt w2
            /\ Observer.complete call o w2 = Returned tt w2.
Proof.
  intros Hsome w1.
  destruct (unsubscribe_terminates (invoke fuel) (invoke_evolves fuel) o w
              Hsome) as [Ht Hh].
  fold w1 in Ht, Hh. split; [done |]. split; [done |].
  intros fuel' rest w2.
  destruct (terminated_inert o w1 fuel' rest Ht) as (Ht2 & Hh2 & Hm).
  fold w2 in Ht2, Hh2, Hm. split; [done |]. split; [congruence | done].
Qed.

Lemma unsubscribe_halts_delivery_witness :
  is_Some (heap one_active !! 0)
  /\ handler_calls 0
       (trace (world_of
                 (invoke 3 [CNext 0 1%Z; CComplete 0]
                    (world_of (Observer.unsubscribe (invoke 3) 0 one_active)))))
     = [].
Proof.
  assert (is_Some (heap one_active !! 0)) as H by (by eexists).
  split; [exact H |].
  destruct (unsubscribe_halts_delivery 3 0 one_active H) as (_ & _ & Hrest).
  exact (proj1 (proj2 (Hrest 3 [CNext 0 1%Z; CComplete 0]))).
Defined.

(** ** Counting teardown invocations *)
Section Teardowns.
Context {T : Type}.
Implicit Types (w : World T) (o : Ref) (c : Code T).

Lemma handler_calls_console o c : handler_calls o (console_of c) = [].
Proof. induction c as [|[] c IH]; simpl; auto. Qed.

Lemma teardown_calls_console o c : teardown_calls o (console_of c) = [].
Proof. induction c as [|[] c IH]; simpl; auto. Qed.

Lemma teardown_calls_self o :
  teardown_calls o [Teardown (T:=T) o] = [Teardown o].
Proof. unfold teardown_calls. simpl. by rewrite Nat.eqb_refl. Qed.

(** One [unsubscribe()] on an observer whose teardown only logs. *)
Lemma unsubscribe_registered_logs fuel o this td w :
  heap w !! o = Some this -> _unsubscribe this = Some td ->
  only_logs td = true ->
  Observer.unsubscribe (invoke (S fuel)) o w
  = Returned tt
      (mkWorld (<[o := mkObserver (handlers this) true (Some td)]> (heap w))
               (trace w ++ Teardown o :: console_of td)).
Proof.
  intros Ho Htd Hlogs. rewrite unsubscribe_unfold, Ho, Htd.
  rewrite invoke_only_logs by done. unfold mark_unsubscribed.
  rewrite Ho, Htd. simpl. by rewrite <- app_assoc.
Qed.

Lemma unsubscribe_times_logs fuel o td N : forall w,
  registered w o = Some td -> only_logs td = true ->
  exists hp,
    unsubscribe_times (invoke (S fuel)) o N w
    = Returned tt
        (mkWorld hp
           (trace w ++ concat (replicate N (Teardown o :: console_of td))))
    /\ registered (mkWorld hp (trace w)) o = Some td
    /\ (1 <= N -> terminated (mkWorld hp (trace w)) o = true).
Proof.
  induction N as [|N IH]; intros w Hreg Hlogs.
  - exists (heap w). simpl. rewrite app_nil_r. destruct w. split; [done |].
    split; [done | lia].
  - unfold registered in Hreg.
    destruct (heap w !! o) as [this|] eqn:Ho; [| done].
    simpl. unfold bind.
    rewrite (unsubscribe_registered_logs fuel o this td) by done.
    set (w1 := mkWorld _ _).
    assert (heap w1 !! o = Some (mkObserver (handlers this) true (Some td)))
      as Ho1.
    { subst w1. simpl. apply list_lookup_insert_eq. by eapply lookup_lt_Some. }
    assert (registered w1 o = Some td) as Hreg1.
    { unfold registered. by rewrite Ho1. }
    destruct (IH w1 Hreg1 Hlogs) as (hp & Hrun & Hreg' & Hterm).
    exists hp. rewrite Hrun. subst w1. simpl. rewrite <- app_assoc. simpl.
    split; [done |]. split; [done |]. intros _.
    destruct N as [|N].
    + simpl in Hrun. injection Hrun as <-. unfold terminated. simpl.
      by rewrite list_lookup_insert_eq by (by eapply lookup_lt_Some).
    + apply Hterm. lia.
Qed.

Lemma teardown_calls_replicate o c N :
  teardown_calls o (concat (replicate N (Teardown (T:=T) o :: console_of c)))
  = replicate N (Teardown o).
Proof.
  induction N as [|N IH]; [done |]. cbn [replicate concat].
  change (Teardown o :: console_of c)
    with ([Teardown (T:=T) o] ++ console_of c) at 1.
  rewrite !teardown_calls_app, teardown_calls_self, teardown_calls_console, IH.
  done.
Qed.

End Teardowns.

(** C1 (as stated, refuted): the Observer that [from([1,2,3]).subscribe({})]
    leaves behind has its teardown registered; two calls of [unsubscribe()]
    run that teardown twice, not once. *)
Lemma unsubscribe_twice_runs_teardown_twice :
  Observable.subscribe (invoke 2) (Observable.from [1; 2; 3]%Z) no_handlers
    empty_world
  = Returned (Observable.mkSubscription 0) after_from
  /\ registered after_from 0 = Some [CLog "unsubscribed"]
  /\ teardown_calls 0
       (trace (world_of (unsubscribe_times (invoke 2) 0 2 after_from)))
     = [Teardown 0; Teardown 0]
  /\ length
       (teardown_calls 0
          (trace (world_of (unsubscribe_times (invoke 2) 0 2 after_from))))
     <> 1.
Proof. repeat split; try reflexivity. vm_compute. lia. Qed.

(** C1 (amended): [unsubscribe()] sets the flag idempotently but runs the
    registered teardown on every call.  Each call on an Observer with a
    registered teardown enters the teardown, whether or not the Observer was
    already unsubscribed; and when the teardown only logs, [N] calls in a row
    return normally having run it exactly [N] times. *)
Theorem unsubscribe_runs_teardown_on_every_call {T} (fuel N : nat) (o : Ref)
    (w : World T) (td : Code T) :
  registered w o = Some td ->
  (exists k,
     trace (world_of (Observer.unsubscribe (invoke fuel) o w))
     = trace w ++ Teardown o :: k)
  /\ (only_logs td = true -> 1 <= fuel ->
      exists w',
        unsubscribe_times (invoke fuel) o N w = Returned tt w'
        /\ trace w'
           = trace w ++ concat (replicate N (Teardown o :: console_of td))
        /\ teardown_calls o (trace w')
           = teardown_calls o (trace w) ++ replicate N (Teardown o)
        /\ registered w' o = Some td
        /\ (1 <= N -> terminated w' o = true)).
Proof.
  intros Hreg. split.
  - unfold registered in Hreg.
    destruct (heap w !! o) as [this|] eqn:Ho; [| done].
    rewrite unsubscribe_unfold, Ho, Hreg.
    set (w2 := mkWorld _ (trace w ++ [Teardown o])).
    destruct (ev_trace _ _ (invoke_evolves fuel td w2)) as [k Hk].
    exists k. rewrite Hk. subst w2. simpl. by rewrite <- app_assoc.
  - intros Hlogs Hfuel. destruct fuel as [|fuel]; [lia |].
    destruct (unsubscribe_times_logs fuel o td N w Hreg Hlogs)
      as (hp & Hrun & Hreg' & Hterm).
    eexists. split; [exact Hrun |]. simpl. split; [done |].
    split; [| done].
    by rewrite teardown_calls_app, teardown_calls_replicate.
Qed.

Lemma unsubscribe_runs_teardown_on_every_call_witness :
  registered after_from 0 = Some [CLog "unsubscribed"]
  /\ exists w',
       unsubscribe_times (invoke 1) 0 3 after_from = Returned tt w'
       /\ teardown_calls 0 (trace w') = [Teardown 0; Teardown 0; Teardown 0].
Proof.
  split; [reflexivity |].
  destruct (proj2 (unsubscribe_runs_teardown_on_every_call 1 3 0 after_from
                     [CLog "unsubscribed"] eq_refl) eq_refl (le_n 1))
    as (w' & Hrun & _ & Hcalls & _).
  exists w'. split; [exact Hrun | exact Hcalls].
Defined.

(** ** What a subscription to [from] looks like from outside *)
Section FromTrace.
Context {T : Type}.
Implicit Types (w : World T) (o : Ref) (h : Handler.t T).

Lemma handler_calls_next_events o h fn (values : list T) :
  Handler.next h = Some fn ->
  handler_calls o (flat_map (next_events o h) values)
  = map (fun v => HNext o v) values.
Proof.
  intros Hn. induction values as [|v values IH]; [done |].
  cbn [flat_map map]. rewrite handler_calls_app, IH.
  unfold next_events. rewrite Hn.
  change (HNext o v :: console_of (fn v))
    with ([HNext o v] ++ console_of (fn v)).
  rewrite handler_calls_app, handler_calls_console. simpl.
  by rewrite Nat.eqb_refl.
Qed.

Lemma handler_calls_complete_events o h fc :
  Handler.complete h = Some fc ->
  handler_calls o (complete_events o h) = [HComplete o].
Proof.
  intros Hc. unfold complete_events. rewrite Hc.
  change (HComplete o :: console_of fc)
    with ([HComplete (T:=T) o] ++ console_of fc).
  rewrite handler_calls_app, handler_calls_console. simpl.
  by rewrite Nat.eqb_refl.
Qed.



End FromTrace.

(** ** [from] against the loop it stands for *)
Section FromLoop.
Context {T : Type}.
Implicit Types (w : World T) (o : Ref) (h : Handler.t T).

Lemma next_enters_handler (call : Code T -> M T unit) o this fn v w :
  heap w !! o = Some this -> isUnsubscribed this = false ->
  Handler.next (handlers this) = Some fn ->
  Observer.next call o v w
  = call (fn v) (mkWorld (heap w) (trace w ++ [HNext o v])).
Proof.
  intros Ho Hu Hn. unfold_methods. rewrite Ho. simpl. rewrite Ho. simpl.
  by rewrite Hn, Hu.
Qed.

Lemma deliver_each_keeps_terminated fuel o fn (values : list T) : forall w w1,
  terminated w o = true ->
  deliver_each (invoke fuel) o fn values w = Returned tt w1 ->
  terminated w1 o = true.
Proof.
  induction values as [|v values IH]; intros w w1 Ht Hrun.
  - by injection Hrun as <-.
  - cbn [deliver_each] in Hrun.
    apply bind_returned in Hrun as ([] & wa & Hlog & Hrun).
    apply bind_returned in Hrun as ([] & wb & Hcall & Hrun).
    injection Hlog as <-. apply (IH wb w1); [| done].
    pose proof (invoke_evolves fuel (fn v)
                  (mkWorld (heap w) (trace w ++ [HNext o v]))) as Hev.
    rewrite Hcall in Hev. by apply (evolves_terminated _ _ o Hev).
Qed.

(** As long as the observer is still subscribed at the end, the emitting
    part of [from]'s producer does what the loop does. *)
Lemma emit_refines_loop fuel o fn (values : list T) : forall this w w1,
  heap w !! o = Some this -> Handler.next (handlers this) = Some fn ->
  deliver_each (invoke fuel) o fn values w = Returned tt w1 ->
  terminated w1 o = false ->
  run_code (invoke fuel) (map (fun value => CNext o value) values) w
  = Returned tt w1.
Proof.
  induction values as [|v values IH]; intros this w w1 Ho Hn Hrun Hact.
  - by injection Hrun as <-.
  - cbn [deliver_each] in Hrun.
    apply bind_returned in Hrun as ([] & wa & Hlog & Hrun).
    apply bind_returned in Hrun as ([] & wb & Hcall & Hrun).
    injection Hlog as <-.
    pose proof (invoke_evolves fuel (fn v)
                  (mkWorld (heap w) (trace w ++ [HNext o v]))) as Hev.
    rewrite Hcall in Hev. cbn [world_of] in Hev.
    assert (isUnsubscribed this = false) as Hu.
    { destruct (isUnsubscribed this) eqn:Hu; [| done].
      assert (terminated wb o = true) as Htb.
      { apply (evolves_terminated _ _ o Hev). unfold terminated. cbn [heap].
        by rewrite Ho. }
      pose proof (deliver_each_keeps_terminated fuel o fn values wb w1 Htb
                    Hrun).
      congruence. }
    destruct (evolves_handlers _ _ o this Hev Ho) as (u & Hb & _).
    cbn [map run_code do_cmd]. unfold bind.
    rewrite (next_enters_handler _ o this fn) by done. rewrite Hcall.
    by apply (IH _ wb w1 Hb).
Qed.

Lemma flat_map_next_events o h fn (values : list T) :
  Handler.next h = Some fn ->
  flat_map (next_events o h) values
  = flat_map (fun v => HNext o v :: console_of (fn v)) values.
Proof.
  intros Hn. induction values as [|v values IH]; [done |].
  cbn [flat_map]. rewrite IH. unfold next_events. by rewrite Hn.
Qed.

End FromLoop.

(** C2: subscribing to [from(values)] with [next] and [complete] handlers
    enters [next] once for each element of [values], in order, then enters
    [complete] once, and nothing more afterwards.

    For any handlers: whenever the loop "for each value enter [next] and run
    its body, then enter [complete] and run its body" returns with the
    Observer still subscribed, [subscribe] returns the handle, and its final
    world is that of the loop with the flag set and the teardown stored.

    For handlers that only record, the result is given outright: every
    [next] marker is followed by what the handler wrote for that value, the
    [complete] marker by what the [complete] handler wrote; the handler
    invocations are [next] on each value in order and one [complete]; and
    no code run later adds another. *)
Theorem from_delivers_in_order_then_completes {T} (fuel : nat)
    (values : list T) (h : Handler.t T) (w : World T) fn fc :
  Handler.next h = Some fn -> Handler.complete h = Some fc ->
  let o := length (heap w) in
  let stored := mkObserver h true (Some [CLog "unsubscribed"]) in
  (forall w2,
     deliver_then_complete (invoke fuel) o fn fc values (allocated h w)
     = Returned tt w2 ->
     terminated w2 o = false ->
     Observable.subscribe (invoke (S fuel)) (Observable.from values) h w
     = Returned (Observable.mkSubscription o)
         (mkWorld (<[o := stored]> (heap w2)) (trace w2)))
  /\ (passive h -> 1 <= fuel ->
      let delivered :=
        flat_map (fun v => HNext o v :: console_of (fn v)) values
          ++ HComplete o :: console_of fc in
      let final := mkWorld (heap w ++ [stored]) (trace w ++ delivered) in
      Observable.subscribe (invoke (S fuel)) (Observable.from values) h w
      = Returned (Observable.mkSubscription o) final
      /\ handler_calls o delivered
         = map (fun v => HNext o v) values ++ [HComplete o]
      /\ terminated final o = true
      /\ forall fuel' (c : Code T),
           handler_calls o (trace (world_of (invoke fuel' c final)))
           = handler_calls o (trace final)).
Proof.
  intros Hn Hc o stored. split.
  - intros w2 Hloop Hact.
    unfold deliver_then_complete in Hloop.
    apply bind_returned in Hloop as ([] & w1 & Heach & Hloop).
    apply bind_returned in Hloop as ([] & wa & Hlog & Hcall).
    injection Hlog as <-.
    pose proof (allocated_lookup h w) as Ho. fold o in Ho.
    pose proof (invoke_evolves fuel fc
                  (mkWorld (heap w1) (trace w1 ++ [HComplete o]))) as Hev2.
    rewrite Hcall in Hev2. cbn [world_of] in Hev2.
    assert (terminated w1 o = false) as Hact1.
    { destruct (terminated w1 o) eqn:Ht1; [| done].
      assert (terminated w2 o = true); [| congruence].
      apply (evolves_terminated _ _ o Hev2). done. }
    pose proof (emit_refines_loop fuel o fn values _ _ w1 Ho Hn Heach Hact1)
      as Hemit.
    pose proof (run_code_evolves (invoke fuel) (invoke_evolves fuel)
                  (map (fun value => CNext o value) values) (allocated h w))
      as Hev1.
    rewrite Hemit in Hev1. cbn [world_of] in Hev1.
    destruct (evolves_handlers _ _ o _ Hev1 Ho) as (u1 & Ho1 & _).
    cbn [handlers _unsubscribe] in Ho1.
    assert (u1 = false) as ->.
    { unfold terminated in Hact1. by rewrite Ho1 in Hact1. }
    destruct (evolves_handlers _ _ o _ Hev2 Ho1) as (u2 & Ho2 & _).
    cbn [handlers _unsubscribe] in Ho2.
    assert (u2 = false) as ->.
    { unfold terminated in Hact. by rewrite Ho2 in Hact. }
    assert (Observer.complete (invoke fuel) o w1
            = Returned tt
                (mkWorld (<[o := mkObserver h true None]> (heap w2))
                         (trace w2))) as Hcomplete.
    { unfold Observer.complete, get_isUnsubscribed, get_handlers.
      unfold bind at 1 2, deref, ret. rewrite Ho1. cbn [negb isUnsubscribed].
      unfold bind at 1 2. rewrite Ho1. cbn [handlers]. rewrite Hc.
      unfold bind, log. rewrite Hcall. rewrite unsubscribe_unfold, Ho2.
      cbn [_unsubscribe]. unfold mark_unsubscribed. by rewrite Ho2. }
    rewrite subscribe_unfold. cbv zeta. fold o.
    unfold invoke at 1; fold (@invoke T). cbn [Observable.from
      Observable._subscribe Observable.body Observable.teardown].
    rewrite run_code_app. unfold bind at 1. rewrite Hemit.
    cbn [run_code do_cmd]. unfold bind at 1. rewrite Hcomplete.
    cbn [ret heap trace].
    rewrite list_lookup_insert_eq by (by eapply lookup_lt_Some).
    cbn [handlers isUnsubscribed]. by rewrite list_insert_insert_eq.
  - intros Hp Hfuel delivered final. destruct fuel as [|fuel]; [lia |].
    pose proof (from_subscribe_passive fuel values h w Hp) as Hsub.
    cbv zeta in Hsub. fold o in Hsub.
    assert (flat_map (next_events o h) values ++ complete_events o h
            = delivered) as Hd.
    { unfold delivered, complete_events.
      by rewrite (flat_map_next_events o h fn), Hc. }
    rewrite Hd in Hsub. split; [exact Hsub |]. split.
    { rewrite <- Hd, handler_calls_app.
      by rewrite (handler_calls_next_events o h fn),
           (handler_calls_complete_events o h fc). }
    assert (terminated final o = true) as Ht.
    { unfold terminated, final. cbn [heap].
      by rewrite lookup_app_r, Nat.sub_diag by (unfold o; lia). }
    split; [exact Ht |]. intros fuel' c.
    by destruct (terminated_inert o final fuel' c Ht) as (_ & Hh & _).
Qed.

Lemma from_delivers_in_order_then_completes_witness :
  Handler.next recorder = Some (fun _ => [CLog "next"])
  /\ Handler.complete recorder = Some [CLog "complete"]
  /\ Observable.subscribe (invoke 2) (Observable.from [10; 20]%Z) recorder
       empty_world
     = Returned (Observable.mkSubscription 0)
         (mkWorld [mkObserver recorder true (Some [CLog "unsubscribed"])]
            [HNext 0 10%Z; Console "next"; HNext 0 20%Z; Console "next";
             HComplete 0; Console "complete"]).
Proof.
  split; [reflexivity |]. split; [reflexivity |].
  refine (proj1 (from_delivers_in_order_then_completes 1 [10; 20]%Z recorder
                   empty_world _ _ eq_refl eq_refl) _ eq_refl eq_refl).
Defined.

(** ** The teardown during and after [subscribe] *)
Section TeardownTiming.
Context {T : Type}.
Implicit Types (w : World T) (o : Ref) (h : Handler.t T).

Import Observable.

(** Nothing that happens inside [subscribe] runs the new observer's
    teardown: it is stored only as the very last step. *)
Lemma subscribe_no_teardown fuel (obs : Observable.t T) h w :
  let o := length (heap w) in
  teardown_calls o (trace (world_of (subscribe (invoke fuel) obs h w)))
  = teardown_calls o (trace w).
Proof.
  intros o. rewrite subscribe_unfold. cbv zeta. fold o.
  pose proof (invoke_evolves fuel (body (_subscribe obs o)) (allocated h w))
    as Hev.
  assert (teardown_calls o
            (trace (world_of (invoke fuel (body (_subscribe obs o))
                                (allocated h w))))
          = teardown_calls o (trace w)) as Hno.
  { apply (evolves_no_teardown (allocated h w)); [done | |].
    - unfold o. rewrite allocated_lookup. by eexists.
    - unfold registered, o. by rewrite allocated_lookup. }
  destruct (invoke fuel _ _) as [[] w1|e w1|w1|w1]; simpl in *; try done.
  by destruct (heap w1 !! o).
Qed.

(** Once [subscribe] has returned, the teardown is registered. *)
Lemma subscribe_registers fuel (obs : Observable.t T) h w s w' :
  subscribe (invoke fuel) obs h w = Returned s w' ->
  let o := length (heap w) in
  s = mkSubscription o
  /\ exists u, heap w' !! o
       = Some (mkObserver h u (Some (teardown (_subscribe obs o)))).
Proof.
  intros Hsub o. rewrite subscribe_unfold in Hsub. cbv zeta in Hsub.
  fold o in Hsub.
  destruct (invoke fuel _ _) as [[] w1|e w1|w1|w1] eqn:Hrun; try done.
  destruct (subscribe_returns (invoke fuel) (invoke_evolves fuel) obs h w w1
              Hrun) as (u & Hu & _).
  fold o in Hu. rewrite Hu in Hsub. injection Hsub as <- <-.
  split; [done |]. exists u. simpl.
  apply list_lookup_insert_eq. by eapply lookup_lt_Some.
Qed.

End TeardownTiming.

(** C9: while [subscribe] runs, the new Observer has no teardown registered,
    so an [unsubscribe()] reached during the producer (directly, or through
    [error]/[complete]) only sets the flag; for every producer, [subscribe]
    adds no invocation of that Observer's teardown to the trace.  The
    teardown is stored when the producer has returned, and the next
    [unsubscribe()] on the handle runs it; if the Observer is terminated by
    then, [next], [error] and [complete] no longer reach [unsubscribe], so
    only such a further [unsubscribe()] does. *)
Theorem teardown_not_run_during_subscribe {T} (fuel : nat)
    (obs : Observable.t T) (h : Handler.t T) (w : World T) :
  let o := length (heap w) in
  let r := Observable.subscribe (invoke fuel) obs h w in
  teardown_calls o (trace (world_of r)) = teardown_calls o (trace w)
  /\ (forall (call : Code T -> M T unit) w0 this,
        heap w0 !! o = Some this -> _unsubscribe this = None ->
        Observer.unsubscribe call o w0 = Returned tt (mark_unsubscribed o w0)
        /\ trace (mark_unsubscribed o w0) = trace w0)
  /\ (forall s w', r = Returned s w' ->
        registered w' o
        = Some (Observable.teardown (Observable._subscribe obs o))
        /\ (forall fuel', exists k,
              trace (world_of
                       (Observable.Subscription_unsubscribe (invoke fuel') s
                          w'))
              = trace w' ++ Teardown o :: k)
        /\ (terminated w' o = true ->
            forall (call : Code T -> M T unit) v e,
              Observer.next call o v w' = Returned tt w'
              /\ Observer.error call o e w' = Returned tt w'
              /\ Observer.complete call o w' = Returned tt w')).
Proof.
  intros o r. split; [apply subscribe_no_teardown |]. split.
  - intros call w0 this Ho Htd. rewrite unsubscribe_unfold, Ho, Htd.
    split; [done |]. unfold mark_unsubscribed. by rewrite Ho.
  - intros s w' Hr.
    destruct (subscribe_registers fuel obs h w s w' Hr) as (-> & u & Hu).
    fold o in Hu. split; [| split].
    + unfold registered. by rewrite Hu.
    + intros fuel'. unfold Observable.Subscription_unsubscribe.
      cbn [Observable.observer]. fold o. rewrite unsubscribe_unfold, Hu.
      cbn [_unsubscribe].
      set (w2 := mkWorld _ (trace w' ++ [Teardown o])).
      destruct (ev_trace _ _ (invoke_evolves fuel'
                  (Observable.teardown (Observable._subscribe obs o)) w2))
        as [k Hk].
      exists k. rewrite Hk. subst w2. simpl. by rewrite <- app_assoc.
    + intros Ht call v e.
      by rewrite next_terminated, error_terminated, complete_terminated.
Qed.

Lemma teardown_not_run_during_subscribe_witness :
  Observable.subscribe (invoke 2) (Observable.from [10; 20]%Z) recorder
    empty_world
  = Returned (Observable.mkSubscription 0)
      (mkWorld [mkObserver recorder true (Some [CLog "unsubscribed"])]
         [HNext 0 10%Z; Console "next"; HNext 0 20%Z; Console "next";
          HComplete 0; Console "complete"])
  /\ exists k,
       trace (world_of
                (Observable.Subscription_unsubscribe (invoke 2)
                   (Observable.mkSubscription 0)
                   (mkWorld
                      [mkObserver recorder true (Some [CLog "unsubscribed"])]
                      [HNext 0 10%Z; Console "next"; HNext 0 20%Z;
                       Console "next"; HComplete 0; Console "complete"])))
       = [HNext 0 10%Z; Console "next"; HNext 0 20%Z; Console "next";
          HComplete 0; Console "complete"] ++ Teardown 0 :: k.
Proof.
  assert (Observable.subscribe (invoke 2) (Observable.from [10; 20]%Z)
            recorder empty_world
          = Returned (Observable.mkSubscription 0)
              (mkWorld [mkObserver recorder true (Some [CLog "unsubscribed"])]
                 [HNext 0 10%Z; Console "next"; HNext 0 20%Z; Console "next";
                  HComplete 0; Console "complete"])) as H by reflexivity.
  split; [exact H |].
  destruct (teardown_not_run_during_subscribe 2 (Observable.from [10; 20]%Z)
              recorder empty_world) as (_ & _ & Hafter).
  destruct (Hafter _ _ H) as (_ & Hrun & _). exact (Hrun 2).
Defined.

(** ** Omitted handlers *)
Section Omitted.
Context {T : Type}.
Implicit Types (w : World T) (o : Ref).

Lemma next_omitted (call : Code T -> M T unit) o this v w :
  heap w !! o = Some this -> Handler.next (handlers this) = None ->
  Observer.next call o v w = Returned tt w.
Proof.
  intros Ho Hn. unfold_methods. rewrite Ho. simpl. rewrite Ho. simpl.
  by rewrite Hn.
Qed.

Lemma error_omitted (call : Code T -> M T unit) o this e w :
  heap w !! o = Some this -> Handler.error (handlers this) = None ->
  isUnsubscribed this = false ->
  Observer.error call o e w = Observer.unsubscribe call o w.
Proof.
  intros Ho Hn Hu. unfold Observer.error, get_isUnsubscribed, get_handlers.
  unfold bind at 1 2, deref, ret. rewrite Ho. simpl. rewrite Hu. simpl.
  unfold bind at 1 2 3. rewrite Ho. simpl. by rewrite Hn.
Qed.

Lemma complete_omitted (call : Code T -> M T unit) o this w :
  heap w !! o = Some this -> Handler.complete (handlers this) = None ->
  isUnsubscribed this = false ->
  Observer.complete call o w = Observer.unsubscribe call o w.
Proof.
  intros Ho Hn Hu. unfold Observer.complete, get_isUnsubscribed, get_handlers.
  unfold bind at 1 2, deref, ret. rewrite Ho. simpl. rewrite Hu. simpl.
  unfold bind at 1 2 3. rewrite Ho. simpl. by rewrite Hn.
Qed.

Lemma passive_no_handlers : passive (Handler.mk (T:=T) None None None).
Proof. repeat split; intros; discriminate. Qed.

End Omitted.

(** C5: an omitted callback is skipped, never called.  On an Observer whose
    [next] is omitted, [next(v)] returns normally and changes nothing; on an
    active Observer whose [error] (or [complete]) is omitted, [error(e)] (or
    [complete()]) is exactly [unsubscribe()]: the Observer becomes
    terminated and a registered teardown is entered, and when that teardown
    is absent or only logs the call returns normally.  In particular
    [from(values).subscribe({})] returns normally for every [values], having
    entered no callback and left the Observer terminated; and so does
    [from(values).subscribe(h)] for every [h] whose supplied callbacks only
    record, whichever of the three are omitted. *)
Theorem omitted_handlers_never_fault {T} (fuel : nat) (o : Ref)
    (this : ObserverObj T) (w : World T) :
  heap w !! o = Some this ->
  (Handler.next (handlers this) = None ->
     forall v, Observer.next (invoke fuel) o v w = Returned tt w)
  /\ (Handler.error (handlers this) = None -> isUnsubscribed this = false ->
      forall e, Observer.error (invoke fuel) o e w
                = Observer.unsubscribe (invoke fuel) o w)
  /\ (Handler.complete (handlers this) = None -> isUnsubscribed this = false ->
      Observer.complete (invoke fuel) o w
      = Observer.unsubscribe (invoke fuel) o w)
  /\ (let w' := world_of (Observer.unsubscribe (invoke fuel) o w) in
      terminated w' o = true
      /\ forall td, _unsubscribe this = Some td ->
           exists k, trace w' = trace w ++ Teardown o :: k)
  /\ (1 <= fuel ->
      match _unsubscribe this with
      | Some td => only_logs td = true
      | None => True
      end ->
      exists w', Observer.unsubscribe (invoke fuel) o w = Returned tt w')
  /\ (forall (values : list T) (w0 : World T) fuel', 2 <= fuel' ->
       Observable.subscribe (invoke fuel') (Observable.from values)
         (Handler.mk None None None) w0
       = Returned (Observable.mkSubscription (length (heap w0)))
           (mkWorld
              (heap w0 ++ [mkObserver (Handler.mk None None None) true
                             (Some [CLog "unsubscribed"])])
              (trace w0)))
  /\ (forall (values : list T) (h : Handler.t T) (w0 : World T) fuel',
       passive h -> 2 <= fuel' ->
       exists w',
         Observable.subscribe (invoke fuel') (Observable.from values) h w0
         = Returned (Observable.mkSubscription (length (heap w0))) w'
         /\ terminated w' (length (heap w0)) = true).
Proof.
  intros Ho. split; [| split; [| split; [| split; [| split; [| split]]]]].
  - intros Hn v. by eapply next_omitted.
  - intros Hn Hu e. by eapply error_omitted.
  - intros Hn Hu. by eapply complete_omitted.
  - intros w'. split.
    + apply (unsubscribe_terminates (invoke fuel) (invoke_evolves fuel) o w).
      by eexists.
    + intros td Htd. subst w'. rewrite unsubscribe_unfold, Ho, Htd.
      set (w2 := mkWorld _ (trace w ++ [Teardown o])).
      destruct (ev_trace _ _ (invoke_evolves fuel td w2)) as [k Hk].
      exists k. rewrite Hk. subst w2. simpl. by rewrite <- app_assoc.
  - intros Hfuel Htd. destruct fuel as [|fuel]; [lia |].
    destruct (_unsubscribe this) as [td|] eqn:E.
    + eexists. by eapply unsubscribe_registered_logs.
    + eexists. by rewrite unsubscribe_unfold, Ho, E.
  - intros values w0 fuel' Hfuel'. destruct fuel' as [|[|fuel']]; [lia | lia |].
    rewrite (from_subscribe_passive fuel' values _ w0 passive_no_handlers).
    f_equal. f_equal. unfold complete_events. simpl. rewrite app_nil_r.
    assert (flat_map
              (next_events (length (heap w0)) (Handler.mk None None None))
              values = []) as ->; [| by rewrite app_nil_r].
    clear. by induction values.
  - intros values h w0 fuel' Hp Hfuel'.
    destruct fuel' as [|[|fuel']]; [lia | lia |].
    rewrite (from_subscribe_passive fuel' values h w0 Hp).
    eexists. split; [done |]. unfold terminated. simpl.
    by rewrite lookup_app_r, Nat.sub_diag by lia.
Qed.

Lemma omitted_handlers_never_fault_witness :
  heap bare_registered !! 0
  = Some (mkObserver no_handlers false (Some [CLog "released"]))
  /\ Observer.next (invoke 2) 0 5%Z bare_registered
     = Returned tt bare_registered
  /\ Observer.error (invoke 2) 0 (ErrString "x") bare_registered
     = Returned tt
         (mkWorld [mkObserver no_handlers true (Some [CLog "released"])]
                  [Teardown 0; Console "released"])
  /\ Observable.subscribe (invoke 2) (Observable.from [1; 2; 3]%Z)
       no_handlers empty_world
     = Returned (Observable.mkSubscription 0) after_from.
Proof.
  destruct (omitted_handlers_never_fault 2 0 _ bare_registered eq_refl)
    as (Hnext & Herror & _ & _ & _ & Hfrom & _).
  split; [reflexivity |]. split; [exact (Hnext eq_refl 5%Z) |]. split.
  - rewrite (Herror eq_refl eq_refl (ErrString "x")). reflexivity.
  - exact (Hfrom [1; 2; 3]%Z empty_world 2 (le_n 2)).
Defined.

(** ** Exceptions thrown by the producer *)
Section ProducerThrows.
Context {T : Type}.
Implicit Types (w : World T) (o : Ref).

(** A [throw] statement ends the run in the world it was reached in. *)
Lemma invoke_throw fuel (pre rest : Code T) e w w1 :
  invoke fuel pre w = Returned tt w1 ->
  invoke fuel (pre ++ CThrow e :: rest) w = Thrown e w1.
Proof.
  destruct fuel as [|fuel]; [done |]. unfold invoke; fold (@invoke T).
  intros Hpre. rewrite run_code_app. unfold bind. by rewrite Hpre.
Qed.

End ProducerThrows.

(** C4: [subscribe] has no handler for exceptions.  If the producer run ends
    in an exception, [subscribe] ends in the same exception and in the same
    world: nothing runs in between, in particular no error handler, and the
    teardown is never stored.  For a producer that reaches a [throw]
    statement after a prefix [pre], the world is the one [pre] left, so the
    error callback is entered only where the producer itself called
    [error]; after a prefix that only logs, no handler has been entered at
    all. *)
Theorem producer_exception_propagates {T} (fuel : nat) (obs : Observable.t T)
    (h : Handler.t T) (w : World T) (e : ApiError) (w1 : World T) :
  let o := length (heap w) in
  invoke fuel (Observable.body (Observable._subscribe obs o)) (allocated h w)
  = Thrown e w1 ->
  Observable.subscribe (invoke fuel) obs h w = Thrown e w1
  /\ registered w1 o = None
  /\ (forall pre rest e' w0,
        Observable.body (Observable._subscribe obs o)
        = pre ++ CThrow e' :: rest ->
        invoke fuel pre (allocated h w) = Returned tt w0 ->
        e' = e /\ w0 = w1)
  /\ (forall pre rest e',
        Observable.body (Observable._subscribe obs o)
        = pre ++ CThrow e' :: rest ->
        only_logs pre = true ->
        handler_calls o (trace w1) = handler_calls o (trace w)).
Proof.
  intros o Hrun. split; [| split; [| split]].
  - rewrite subscribe_unfold. cbv zeta. fold o. by rewrite Hrun.
  - pose proof (invoke_evolves fuel
                  (Observable.body (Observable._subscribe obs o))
                  (allocated h w)) as Hev.
    rewrite Hrun in Hev. simpl in Hev.
    rewrite (evolves_registered (allocated h w) w1 o Hev).
    + unfold registered, o. by rewrite allocated_lookup.
    + unfold o. rewrite allocated_lookup. by eexists.
  - intros pre rest e' w0 Hbody Hpre.
    rewrite Hbody, (invoke_throw fuel pre rest e' _ w0 Hpre) in Hrun.
    by injection Hrun as -> ->.
  - intros pre rest e' Hbody Hlogs. rewrite Hbody in Hrun.
    destruct fuel as [|fuel]; [done |].
    rewrite (invoke_throw (S fuel) pre rest e' _ _
               (invoke_only_logs fuel pre _ Hlogs)) in Hrun.
    injection Hrun as _ <-. simpl.
    by rewrite handler_calls_app, handler_calls_console, app_nil_r.
Qed.

Lemma producer_exception_propagates_witness :
  invoke 2 (Observable.body (Observable._subscribe throwing 0))
    (allocated recorder empty_world)
  = Thrown (ErrString "boom")
      (mkWorld [mkObserver recorder false None] [Console "start"])
  /\ Observable.subscribe (invoke 2) throwing recorder empty_world
     = Thrown (ErrString "boom")
         (mkWorld [mkObserver recorder false None] [Console "start"]).
Proof.
  assert (invoke 2 (Observable.body (Observable._subscribe throwing 0))
            (allocated recorder empty_world)
          = Thrown (ErrString "boom")
              (mkWorld [mkObserver recorder false None] [Console "start"]))
    as H by reflexivity.
  split; [exact H |].
  exact (proj1 (producer_exception_propagates 2 throwing recorder empty_world
                  _ _ H)).
Defined.

(** ** Calling back into the observer from a terminal handler *)
Section Reentrancy.
Context {T : Type}.
Implicit Types (w : World T) (o : Ref).

Lemma next_active (call : Code T -> M T unit) o this fn v w :
  heap w !! o = Some this -> isUnsubscribed this = false ->
  Handler.next (handlers this) = Some fn ->
  Observer.next call o v w
  = call (fn v) (mkWorld (heap w) (trace w ++ [HNext o v])).
Proof.
  intros Ho Hu Hn. unfold_methods. rewrite Ho. simpl. rewrite Ho. simpl.
  by rewrite Hn, Hu.
Qed.

(** A handler body that logs and then calls [o.next(v)] on the still active
    observer [o], followed by whatever the method does next. *)
Lemma reentrant_body fuel o this fn v (pre rest : Code T)
    (after : M T unit) w :
  heap w !! o = Some this -> isUnsubscribed this = false ->
  Handler.next (handlers this) = Some fn -> only_logs pre = true ->
  (forall w0, evolves w0 (world_of (after w0))) ->
  exists k,
    trace (world_of (bind (invoke (S fuel) (pre ++ CNext o v :: rest))
                          (fun _ => after) w))
    = trace w ++ console_of pre ++ HNext o v :: k.
Proof.
  intros Ho Hu Hn Hlogs Hafter.
  set (w1 := mkWorld (heap w) (trace w ++ console_of pre)).
  set (w2 := mkWorld (heap w1) (trace w1 ++ [HNext o v])).
  assert (evolves w2
            (world_of (bind (invoke (S fuel) (pre ++ CNext o v :: rest))
                            (fun _ => after) w))) as Hev.
  { eapply evolves_trans; [| apply bind_evolves; intros; apply Hafter].
    unfold invoke; fold (@invoke T). rewrite run_code_app. unfold bind at 1.
    rewrite run_code_only_logs by done. fold w1. cbn [run_code].
    eapply evolves_trans;
      [| apply bind_evolves; intros; apply run_code_evolves, invoke_evolves].
    cbn [do_cmd]. rewrite (next_active _ o this fn) by done. fold w2.
    apply invoke_evolves. }
  destruct (ev_trace _ _ Hev) as [k Hk]. exists k. rewrite Hk.
  subst w2 w1. simpl. by rewrite <- !app_assoc.
Qed.

End Reentrancy.

(** C10: [error] and [complete] enter the handler first and set the flag
    afterwards.  On an active Observer with a [next] handler, when the
    [error] (or [complete]) handler, after some logging, calls
    [observer.next(v)] on that same Observer, the [next] handler is entered:
    the trace continues with the terminal handler, its logging, and then
    [next(v)]. *)
Theorem reentrant_next_from_terminal_handler {T} (fuel : nat) (o : Ref)
    (this : ObserverObj T) (w : World T) fn (v : T) (pre rest : Code T) :
  heap w !! o = Some this -> isUnsubscribed this = false ->
  Handler.next (handlers this) = Some fn ->
  only_logs pre = true -> 1 <= fuel ->
  (forall fe e,
     Handler.error (handlers this) = Some fe ->
     fe e = pre ++ CNext o v :: rest ->
     exists k,
       trace (world_of (Observer.error (invoke fuel) o e w))
       = trace w ++ HError o e :: console_of pre ++ HNext o v :: k)
  /\ (forall fc,
        Handler.complete (handlers this) = Some fc ->
        fc = pre ++ CNext o v :: rest ->
        exists k,
          trace (world_of (Observer.complete (invoke fuel) o w))
          = trace w ++ HComplete o :: console_of pre ++ HNext o v :: k).
Proof.
  intros Ho Hu Hn Hlogs Hfuel. destruct fuel as [|fuel]; [lia |].
  assert (forall w0 : World T,
            evolves w0 (world_of (Observer.unsubscribe (invoke (S fuel)) o w0)))
    as Hafter by (intros; apply unsubscribe_evolves, invoke_evolves).
  split.
  - intros fe e He Hbody.
    unfold Observer.error, get_isUnsubscribed, get_handlers.
    unfold bind at 1 2, deref, ret. rewrite Ho. cbn [negb]. rewrite Hu.
    cbn [negb]. unfold bind at 1 2. rewrite Ho, He, Hbody.
    unfold bind at 2, log.
    set (w0 := mkWorld (heap w) (trace w ++ [HError o e])).
    destruct (reentrant_body fuel o this fn v pre rest
                (Observer.unsubscribe (invoke (S fuel)) o) w0)
      as [k Hk]; try done.
    exists k. unfold bind in *. cbv beta. fold w0. rewrite Hk. subst w0.
    simpl.
    by rewrite <- app_assoc.
  - intros fc Hc ->.
    unfold Observer.complete, get_isUnsubscribed, get_handlers.
    unfold bind at 1 2, deref, ret. rewrite Ho. cbn [negb]. rewrite Hu.
    cbn [negb]. unfold bind at 1 2. rewrite Ho, Hc.
    unfold bind at 2, log.
    set (w0 := mkWorld (heap w) (trace w ++ [HComplete o])).
    destruct (reentrant_body fuel o this fn v pre rest
                (Observer.unsubscribe (invoke (S fuel)) o) w0)
      as [k Hk]; try done.
    exists k. unfold bind in *. cbv beta. fold w0. rewrite Hk. subst w0.
    simpl.
    by rewrite <- app_assoc.
Qed.

Lemma reentrant_next_from_terminal_handler_witness :
  heap (allocated reentrant empty_world) !! 0
  = Some (mkObserver reentrant false None)
  /\ trace (world_of (Observer.error (invoke 2) 0 (ErrString "x")
                        (allocated reentrant empty_world)))
     = [HError 0 (ErrString "x"); Console "error"; HNext 0 42%Z;
        Console "next"]
  /\ exists k,
       trace (world_of (Observer.complete (invoke 2) 0
                          (allocated reentrant empty_world)))
       = [] ++ HComplete 0 :: console_of [CLog (T:=Z) "complete"]
            ++ HNext 0 42%Z :: k.
Proof.
  split; [reflexivity |]. split; [reflexivity |].
  destruct (reentrant_next_from_terminal_handler 2 0 _
              (allocated reentrant empty_world) _ 42%Z [CLog "complete"] []
              eq_refl eq_refl eq_refl eq_refl (le_S _ _ (le_n 1)))
    as [_ Hcomplete].
  exact (Hcomplete _ eq_refl eq_refl).
Defined.

(** C7: [subscribe(handlers)] allocates a fresh Observer holding [handlers],
    active and without teardown; runs the producer on it; and, the producer
    having returned in world [w1], returns in that same world (nothing else
    has run: the trace is [w1]'s) with the producer's return value stored as
    the Observer's teardown and every other object untouched.  The handle it
    returns closes over that Observer, and its [unsubscribe()] is the
    Observer's. *)
Theorem subscribe_runs_producer_then_stores_teardown {T} (fuel : nat)
    (obs : Observable.t T) (h : Handler.t T) (w w1 : World T) :
  let o := length (heap w) in
  let p := Observable._subscribe obs o in
  invoke fuel (Observable.body p) (allocated h w) = Returned tt w1 ->
  heap w !! o = None
  /\ Observer.new h w = Returned o (allocated h w)
  /\ heap (allocated h w) !! o = Some (mkObserver h false None)
  /\ (forall o', o' <> o -> heap (allocated h w) !! o' = heap w !! o')
  /\ exists u w',
       Observable.subscribe (invoke fuel) obs h w
       = Returned (Observable.mkSubscription o) w'
       /\ trace w' = trace w1
       /\ heap w1 !! o = Some (mkObserver h u None)
       /\ heap w' !! o = Some (mkObserver h u (Some (Observable.teardown p)))
       /\ (forall o', o' <> o -> heap w' !! o' = heap w1 !! o')
       /\ forall call : Code T -> M T unit,
            Observable.Subscription_unsubscribe call
              (Observable.mkSubscription o)
            = Observer.unsubscribe call o.
Proof.
  intros o p Hrun. split; [| split; [| split; [| split]]].
  - apply lookup_ge_None. unfold o. lia.
  - done.
  - apply allocated_lookup.
  - intros o' Hne. simpl. destruct (decide (o' < o)) as [Hlt|Hge].
    + by rewrite lookup_app_l.
    + rewrite !lookup_ge_None_2; [done | unfold o in *; lia |].
      rewrite length_app. simpl. unfold o in *. lia.
  - destruct (subscribe_returns (invoke fuel) (invoke_evolves fuel) obs h w w1
                Hrun) as (u & Hu & Hsub).
    fold o in Hu, Hsub. fold p in Hsub.
    eexists u, _. split; [exact Hsub |]. cbn [trace heap].
    split; [done |]. split; [done |]. split; [| split].
    + apply list_lookup_insert_eq. by eapply lookup_lt_Some.
    + intros o' Hne. by apply list_lookup_insert_ne.
    + done.
Qed.

Lemma subscribe_runs_producer_then_stores_teardown_witness :
  invoke 2
    (Observable.body (Observable._subscribe (Observable.from [10; 20]%Z) 0))
    (allocated recorder empty_world)
  = Returned tt
      (mkWorld [mkObserver recorder true None]
         [HNext 0 10%Z; Console "next"; HNext 0 20%Z; Console "next";
          HComplete 0; Console "complete"])
  /\ exists u w',
       Observable.subscribe (invoke 2) (Observable.from [10; 20]%Z) recorder
         empty_world
       = Returned (Observable.mkSubscription 0) w'
       /\ heap w' !! 0
          = Some (mkObserver recorder u (Some [CLog "unsubscribed"])).
Proof.
  assert (invoke 2
            (Observable.body
               (Observable._subscribe (Observable.from [10; 20]%Z) 0))
            (allocated recorder empty_world)
          = Returned tt
              (mkWorld [mkObserver recorder true None]
                 [HNext 0 10%Z; Console "next"; HNext 0 20%Z; Console "next";
                  HComplete 0; Console "complete"])) as H by reflexivity.
  split; [exact H |].
  destruct (subscribe_runs_producer_then_stores_teardown 2
              (Observable.from [10; 20]%Z) recorder empty_world _ H)
    as (_ & _ & _ & _ & u & w' & Hsub & _ & _ & Hstored & _).
  exists u, w'. split; [exact Hsub | exact Hstored].
Defined.

(** ** The frame of a method call: only [this] is written *)
Section Frame.
Context {T : Type}.
Implicit Types (w : World T) (a b : Ref).

Lemma leaves_alone_refl b w : leaves_alone b w w.
Proof. by repeat split. Qed.

Lemma leaves_alone_trans b w1 w2 w3 :
  leaves_alone b w1 w2 -> leaves_alone b w2 w3 -> leaves_alone b w1 w3.
Proof. intros (? & ? & ?) (? & ? & ?). repeat split; congruence. Qed.

Lemma leaves_alone_log b (ev : Event T) w :
  is_handler_event b ev = false -> is_teardown_event b ev = false ->
  leaves_alone b w (mkWorld (heap w) (trace w ++ [ev])).
Proof.
  intros Hh Ht. split; [done |]. simpl.
  rewrite handler_calls_app, teardown_calls_app.
  unfold handler_calls at 2, teardown_calls at 2. simpl.
  by rewrite Hh, Ht, !app_nil_r.
Qed.

Lemma leaves_alone_mark a b w :
  a <> b -> leaves_alone b w (mark_unsubscribed a w).
Proof.
  intros Hne. unfold mark_unsubscribed.
  destruct (heap w !! a); [| apply leaves_alone_refl].
  split; [| done]. simpl. by apply list_lookup_insert_ne.
Qed.

Lemma only_logs_quiet fuel b (c : Code T) :
  only_logs c = true -> quiet fuel b c.
Proof.
  intros Hlogs w. destruct fuel as [|fuel]; [apply leaves_alone_refl |].
  rewrite invoke_only_logs by done. split; [done |]. simpl.
  by rewrite handler_calls_app, teardown_calls_app, handler_calls_console,
       teardown_calls_console, !app_nil_r.
Qed.

Variables (fuel : nat) (a b : Ref).
Hypothesis a_not_b : a <> b.

Lemma neq_eqb : Nat.eqb a b = false.
Proof. by apply Nat.eqb_neq. Qed.

Lemma unsubscribe_alone w :
  (forall td, registered w a = Some td -> quiet fuel b td) ->
  leaves_alone b w (world_of (Observer.unsubscribe (invoke fuel) a w)).
Proof.
  intros Hq. rewrite unsubscribe_unfold. unfold registered in Hq.
  destruct (heap w !! a) as [this|] eqn:Ha; [| apply leaves_alone_refl].
  destruct (_unsubscribe this) as [td|] eqn:Htd.
  - eapply leaves_alone_trans; [| apply Hq; done].
    eapply leaves_alone_trans; [apply (leaves_alone_mark a b w a_not_b) |].
    split; [done |]. unfold mark_unsubscribed. rewrite Ha. simpl.
    rewrite handler_calls_app, teardown_calls_app. simpl.
    by rewrite neq_eqb, !app_nil_r.
  - by apply leaves_alone_mark.
Qed.

Lemma next_alone this v w :
  heap w !! a = Some this -> callbacks_quiet fuel b this ->
  leaves_alone b w (world_of (Observer.next (invoke fuel) a v w)).
Proof.
  intros Ha (Hn & _). unfold_methods. rewrite Ha. simpl. rewrite Ha. simpl.
  destruct (Handler.next (handlers this)) as [f|] eqn:Hf;
    [| apply leaves_alone_refl].
  destruct (isUnsubscribed this); simpl; [apply leaves_alone_refl |].
  eapply leaves_alone_trans; [| by eapply Hn].
  apply leaves_alone_log; simpl; [apply neq_eqb | done].
Qed.

(** The part shared by [error] and [complete]. *)
Lemma terminal_alone this (ev : Event T) (f : option (Code T)) w :
  heap w !! a = Some this -> isUnsubscribed this = false ->
  (forall o', is_teardown_event o' ev = false) ->
  (forall o', is_handler_event o' ev = true -> o' = a) ->
  (forall c, f = Some c -> quiet fuel b c) ->
  (forall td, _unsubscribe this = Some td -> quiet fuel b td) ->
  leaves_alone b w
    (world_of
       (bind (match f with
              | Some c => bind (log ev) (fun _ => invoke fuel c)
              | None => ret tt
              end)
             (fun _ => Observer.unsubscribe (invoke fuel) a) w)).
Proof.
  intros Ha Hu Ht Hh Hf Htd.
  assert (is_handler_event b ev = false) as Hb.
  { destruct (is_handler_event b ev) eqn:E; [| done].
    apply Hh in E. by destruct a_not_b. }
  set (m := match f with
            | Some c => bind (log ev) (fun _ => invoke fuel c)
            | None => ret tt
            end).
  assert (leaves_alone b w (world_of (m w)) /\ evolves w (world_of (m w)))
    as [Hm Hev].
  { subst m. destruct f as [c|]; simpl.
    - unfold bind, log. split.
      + eapply leaves_alone_trans; [by apply leaves_alone_log |].
        by apply Hf.
      + eapply evolves_trans; [| apply invoke_evolves].
        apply evolves_log. intros o' this' Ho'. split; [| done].
        intros Hu'. destruct (is_handler_event o' ev) eqn:E; [| done].
        apply Hh in E. subst o'. congruence.
    - split; [apply leaves_alone_refl | apply evolves_refl]. }
  unfold bind. destruct (m w) as [[] w1|e w1|w1|w1]; simpl in *; try done.
  eapply leaves_alone_trans; [exact Hm |]. apply unsubscribe_alone.
  intros td Hreg. apply Htd.
  rewrite (evolves_registered w w1 a Hev) in Hreg by (by eexists).
  unfold registered in Hreg. by rewrite Ha in Hreg.
Qed.

Lemma error_alone this e w :
  heap w !! a = Some this -> callbacks_quiet fuel b this ->
  leaves_alone b w (world_of (Observer.error (invoke fuel) a e w)).
Proof.
  intros Ha (_ & He & _ & Htd).
  unfold Observer.error, get_isUnsubscribed, get_handlers.
  unfold bind at 1 2, deref, ret. rewrite Ha. simpl.
  destruct (isUnsubscribed this) eqn:Hu; simpl; [apply leaves_alone_refl |].
  unfold bind at 1 2. rewrite Ha.
  assert (forall o', is_handler_event o' (HError (T:=T) a e) = true -> o' = a)
    as Hh by (simpl; intros o' E; by apply Nat.eqb_eq in E).
  destruct (Handler.error (handlers this)) as [f|] eqn:Hf.
  - apply (terminal_alone this (HError a e) (Some (f e))); try done.
    intros c [= <-]. by eapply He.
  - by apply (terminal_alone this (HError a e) None).
Qed.

Lemma complete_alone this w :
  heap w !! a = Some this -> callbacks_quiet fuel b this ->
  leaves_alone b w (world_of (Observer.complete (invoke fuel) a w)).
Proof.
  intros Ha (_ & _ & Hc & Htd).
  unfold Observer.complete, get_isUnsubscribed, get_handlers.
  unfold bind at 1 2, deref, ret. rewrite Ha. simpl.
  destruct (isUnsubscribed this) eqn:Hu; simpl; [apply leaves_alone_refl |].
  unfold bind at 1 2. rewrite Ha.
  apply (terminal_alone this (HComplete a) (Handler.complete (handlers this)));
    try done.
  simpl. intros o' E. by apply Nat.eqb_eq in E.
Qed.

End Frame.

Lemma distinct_independent {T} (a b : Ref) : a <> b -> @independent_of T a b.
Proof.
  intros Hne fuel w this Ha Hq v e. split; [| split; [| split]].
  - by eapply next_alone.
  - by eapply error_alone.
  - by eapply complete_alone.
  - apply unsubscribe_alone; [done |]. intros td Hreg.
    unfold registered in Hreg. rewrite Ha in Hreg. by apply Hq.
Qed.

Lemma subscribe_inversion {T} fuel (obs : Observable.t T) h w s w' :
  Observable.subscribe (invoke fuel) obs h w = Returned s w' ->
  exists w1,
    invoke fuel
      (Observable.body (Observable._subscribe obs (length (heap w))))
      (allocated h w) = Returned tt w1
    /\ trace w' = trace w1.
Proof.
  rewrite subscribe_unfold. cbv zeta.
  destruct (invoke fuel _ _) as [[] w1|e w1|w1|w1]; try done.
  destruct (heap w1 !! length (heap w)); [| done].
  intros [= <- <-]. by exists w1.
Qed.

(** C8: two [subscribe] calls on one Observable give two distinct
    Observers, each holding its own handlers and its own teardown (the
    result of its own run of the producer: the Observable is a value that
    [subscribe] only reads); and a method called on one of the two
    Observers changes neither the fields of the other nor the invocations
    of the other's handlers and teardown, as long as the user's callbacks
    of the first do not themselves reach the second. *)
Theorem subscriptions_are_independent {T} (fuel : nat) (obs : Observable.t T)
    (h1 h2 : Handler.t T) (w w1 w2 : World T)
    (s1 s2 : Observable.Subscription) :
  Observable.subscribe (invoke fuel) obs h1 w = Returned s1 w1 ->
  Observable.subscribe (invoke fuel) obs h2 w1 = Returned s2 w2 ->
  let o1 := Observable.observer s1 in
  let o2 := Observable.observer s2 in
  o1 <> o2
  /\ (exists u, heap w2 !! o1
        = Some (mkObserver h1 u
                  (Some (Observable.teardown (Observable._subscribe obs o1)))))
  /\ (exists u, heap w2 !! o2
        = Some (mkObserver h2 u
                  (Some (Observable.teardown (Observable._subscribe obs o2)))))
  /\ (exists wa,
        invoke fuel (Observable.body (Observable._subscribe obs o1))
          (allocated h1 w) = Returned tt wa
        /\ trace w1 = trace wa)
  /\ (exists wb,
        invoke fuel (Observable.body (Observable._subscribe obs o2))
          (allocated h2 w1) = Returned tt wb
        /\ trace w2 = trace wb)
  /\ @independent_of T o1 o2
  /\ @independent_of T o2 o1.
Proof.
  intros Hsub1 Hsub2.
  destruct (subscribe_registers fuel obs h1 w s1 w1 Hsub1) as (-> & u1 & Hu1).
  destruct (subscribe_registers fuel obs h2 w1 s2 w2 Hsub2) as (-> & u2 & Hu2).
  cbv zeta. cbn [Observable.observer].
  set (o1 := length (heap w)) in *. set (o2 := length (heap w1)) in *.
  assert (o1 < o2) as Hlt by (by eapply lookup_lt_Some).
  pose proof (subscribe_evolves (invoke fuel) (invoke_evolves fuel) obs h2 w1)
    as Hev.
  rewrite Hsub2 in Hev. simpl in Hev.
  destruct (evolves_handlers w1 w2 o1 _ Hev Hu1) as (u1' & Hu1' & _).
  split; [lia |]. split; [by exists u1' |]. split; [by exists u2 |].
  split; [by eapply subscribe_inversion |].
  split; [by eapply subscribe_inversion |].
  split; apply distinct_independent; lia.
Qed.

Lemma subscriptions_are_independent_witness :
  Observable.subscribe (invoke 2) (Observable.from [10; 20]%Z) recorder
    empty_world
  = Returned (Observable.mkSubscription 0) first_subscribed
  /\ Observable.subscribe (invoke 2) (Observable.from [10; 20]%Z) recorder
       first_subscribed
     = Returned (Observable.mkSubscription 1) both_subscribed
  /\ 0 <> 1
  /\ leaves_alone 1 both_subscribed
       (world_of (Observer.unsubscribe (invoke 2) 0 both_subscribed)).
Proof.
  assert (Observable.subscribe (invoke 2) (Observable.from [10; 20]%Z)
            recorder empty_world
          = Returned (Observable.mkSubscription 0) first_subscribed)
    as H1 by reflexivity.
  assert (Observable.subscribe (invoke 2) (Observable.from [10; 20]%Z)
            recorder first_subscribed
          = Returned (Observable.mkSubscription 1) both_subscribed)
    as H2 by reflexivity.
  split; [exact H1 |]. split; [exact H2 |].
  destruct (subscriptions_are_independent 2 _ _ _ _ _ _ _ _ H1 H2)
    as (Hne & _ & _ & _ & _ & Hind & _).
  split; [exact Hne |].
  refine (proj2 (proj2 (proj2
            (Hind 2 both_subscribed _ eq_refl _ 0%Z (ErrString "x"))))).
  repeat split; intros;
    match goal with H : _ = Some _ |- _ => injection H as <- end;
    by apply only_logs_quiet.
Defined.

(** ** The program as it is run *)

(** First scenario of the spec's section 8. *)
Example scenario_from_10_20 :
  handler_calls 0
    (trace (world_of
              (Observable.subscribe (invoke 2) (Observable.from [10; 20]%Z)
                 (Handler.mk (Some (fun _ => [])) None (Some []))
                 empty_world)))
  = [HNext 0 10%Z; HNext 0 20%Z; HComplete 0].
Proof. reflexivity. Qed.

(** Second scenario: exactly one [error('x')] and no [next]. *)
Example scenario_error_then_next :
  handler_calls 0
    (trace (world_of
              (Observable.subscribe (invoke 2) error_then_next recorder
                 empty_world)))
  = [HError 0 (ErrString "x")].
Proof. reflexivity. Qed.

(** A producer that unsubscribes halfway: only what it emitted before is
    delivered. *)
Example scenario_unsubscribe_midway :
  trace (world_of
           (Observable.subscribe (invoke 2) unsubscribes_midway recorder
              empty_world))
  = [HNext 0 1%Z; Console "next"].
Proof. reflexivity. Qed.

(** * Further properties of the Observer and the Observable *)

(** ** A stream of calls on one observer *)
Section Streams.
Context {T : Type}.
Implicit Types (w : World T) (o : Ref) (c : Code T).

(** On a terminated observer a whole stream of calls is a no-op. *)
Lemma run_delivery_terminated (call : Code T -> M T unit) o c w :
  delivery_on o c = true -> terminated w o = true ->
  run_code call c w = Returned tt w.
Proof.
  intros Hc Ht. induction c as [|x c IH]; [done |].
  simpl in Hc. apply andb_prop in Hc as [Hx Hc]. simpl. unfold bind.
  assert (do_cmd call x w = Returned tt w) as ->; [| by apply IH].
  destruct x as [o' v|o' e|o'| | |]; simpl in Hx; try done;
    apply Nat.eqb_eq in Hx as ->; simpl.
  - by apply next_terminated.
  - by apply error_terminated.
  - by apply complete_terminated.
Qed.

Lemma terminal_returned_terminated fuel o (t : Cmd T) w w' :
  is_terminal_on o t = true ->
  do_cmd (invoke fuel) t w = Returned tt w' -> terminated w' o = true.
Proof.
  destruct t as [|o' e|o'| | |]; simpl; try done;
    intros Ho; apply Nat.eqb_eq in Ho as ->.
  - apply error_returned_terminated, invoke_evolves.
  - apply complete_returned_terminated, invoke_evolves.
Qed.

End Streams.

(** X1: whatever a producer calls on its observer after its first terminal
    call is dropped.  For any callbacks and any world, running a body whose
    terminal call ([error] or [complete]) on an Observer is followed only by
    further [next]/[error]/[complete] calls on that Observer is the same as
    running the body cut after the terminal call: same outcome, same trace,
    same store. *)
Theorem calls_after_terminal_are_dropped {T} (fuel : nat) (o : Ref)
    (pre rest : Code T) (t : Cmd T) (w : World T) :
  is_terminal_on o t = true -> delivery_on o rest = true ->
  invoke fuel (pre ++ t :: rest) w = invoke fuel (pre ++ [t]) w.
Proof.
  intros Ht Hrest. destruct fuel as [|fuel]; [done |].
  unfold invoke; fold (@invoke T). rewrite !run_code_app. unfold bind.
  destruct (run_code (invoke fuel) pre w) as [[] w1| | |]; try done.
  cbn [run_code]. unfold bind.
  destruct (do_cmd (invoke fuel) t w1) as [[] w2| | |] eqn:Hdo; try done.
  apply (run_delivery_terminated _ o); [done |].
  by eapply terminal_returned_terminated.
Qed.

Lemma calls_after_terminal_are_dropped_witness :
  is_terminal_on 0 (CError (T:=Z) 0 (ErrString "x")) = true
  /\ invoke 3 [CNext 0 1%Z; CError 0 (ErrString "x"); CNext 0 2%Z;
               CComplete 0] one_active
     = invoke 3 [CNext 0 1%Z; CError 0 (ErrString "x")] one_active.
Proof.
  split; [reflexivity |].
  exact (calls_after_terminal_are_dropped 3 0 [CNext 0 1%Z]
           [CNext 0 2%Z; CComplete 0] (CError 0 (ErrString "x")) one_active
           eq_refl eq_refl).
Defined.

(** ** Streams reaching callbacks that only log *)
Section PassiveStreams.
Context {T : Type}.
Implicit Types (w : World T) (o : Ref) (c : Code T).

Lemma unsubscribe_benign fuel o this w :
  heap w !! o = Some this -> benign (_unsubscribe this) ->
  Observer.unsubscribe (invoke (S fuel)) o w
  = Returned tt
      (mkWorld
         (<[o := mkObserver (handlers this) true (_unsubscribe this)]>
            (heap w))
         (trace w ++ teardown_events o (_unsubscribe this))).
Proof.
  intros Ho Hb. rewrite unsubscribe_unfold, Ho. unfold mark_unsubscribed.
  rewrite Ho. destruct (_unsubscribe this) as [td|] eqn:Htd; simpl in *.
  - rewrite invoke_only_logs by done. simpl. by rewrite <- app_assoc.
  - by rewrite app_nil_r.
Qed.

Lemma error_active_benign fuel o this e w :
  heap w !! o = Some this -> isUnsubscribed this = false ->
  passive (handlers this) -> benign (_unsubscribe this) ->
  Observer.error (invoke (S fuel)) o e w
  = Returned tt
      (mkWorld
         (<[o := mkObserver (handlers this) true (_unsubscribe this)]>
            (heap w))
         (trace w ++ error_events o (handlers this) e
                  ++ teardown_events o (_unsubscribe this))).
Proof.
  intros Ho Hu (_ & He & _) Hb. unfold error_events.
  unfold Observer.error, get_isUnsubscribed, get_handlers.
  unfold bind at 1 2, deref, ret. rewrite Ho. simpl. rewrite Hu. simpl.
  unfold bind at 1 2 3. rewrite Ho. simpl.
  destruct (Handler.error (handlers this)) as [f|] eqn:Hf.
  - unfold bind, log. rewrite invoke_only_logs by eauto.
    rewrite (unsubscribe_benign fuel o this) by done. simpl.
    by rewrite <- !app_assoc.
  - unfold ret. by rewrite (unsubscribe_benign fuel o this).
Qed.

Lemma complete_active_benign fuel o this w :
  heap w !! o = Some this -> isUnsubscribed this = false ->
  passive (handlers this) -> benign (_unsubscribe this) ->
  Observer.complete (invoke (S fuel)) o w
  = Returned tt
      (mkWorld
         (<[o := mkObserver (handlers this) true (_unsubscribe this)]>
            (heap w))
         (trace w ++ complete_events o (handlers this)
                  ++ teardown_events o (_unsubscribe this))).
Proof.
  intros Ho Hu (_ & _ & Hc) Hb. unfold complete_events.
  unfold Observer.complete, get_isUnsubscribed, get_handlers.
  unfold bind at 1 2, deref, ret. rewrite Ho. simpl. rewrite Hu. simpl.
  unfold bind at 1 2 3. rewrite Ho. simpl.
  destruct (Handler.complete (handlers this)) as [f|] eqn:Hf.
  - unfold bind, log. rewrite invoke_only_logs by eauto.
    rewrite (unsubscribe_benign fuel o this) by done. simpl.
    by rewrite <- !app_assoc.
  - unfold ret. by rewrite (unsubscribe_benign fuel o this).
Qed.

Lemma run_stream_passive fuel o this c : forall w,
  heap w !! o = Some this -> isUnsubscribed this = false ->
  passive (handlers this) -> benign (_unsubscribe this) ->
  delivery_on o c = true ->
  run_code (invoke (S fuel)) c w
  = Returned tt
      (mkWorld
         (if has_terminal o c
          then <[o := mkObserver (handlers this) true (_unsubscribe this)]>
                 (heap w)
          else heap w)
         (trace w ++ stream_trace o this c)).
Proof.
  induction c as [|x c IH]; intros w Ho Hu Hp Hb Hc.
  - simpl. rewrite app_nil_r. by destruct w.
  - simpl in Hc. apply andb_prop in Hc as [Hx Hc].
    destruct x as [o' v|o' e|o'| | |]; simpl in Hx; try done;
      apply Nat.eqb_eq in Hx as ->; cbn [run_code do_cmd]; unfold bind.
    + rewrite (next_active_passive fuel o this) by done.
      rewrite IH by done. cbn [has_terminal existsb is_terminal_on orb heap
                                trace stream_trace].
      fold (has_terminal o c). by rewrite <- app_assoc.
    + rewrite (error_active_benign fuel o this) by done.
      rewrite (run_delivery_terminated _ o); [| done |].
      * cbn [has_terminal existsb is_terminal_on stream_trace].
        by rewrite Nat.eqb_refl.
      * unfold terminated. simpl.
        by rewrite list_lookup_insert_eq by (by eapply lookup_lt_Some).
    + rewrite (complete_active_benign fuel o this) by done.
      rewrite (run_delivery_terminated _ o); [| done |].
      * cbn [has_terminal existsb is_terminal_on stream_trace].
        by rewrite Nat.eqb_refl.
      * unfold terminated. simpl.
        by rewrite list_lookup_insert_eq by (by eapply lookup_lt_Some).
Qed.

Lemma teardown_calls_error_events o (h : Handler.t T) e :
  teardown_calls o (error_events o h e) = [].
Proof.
  unfold error_events. destruct (Handler.error h) as [f|]; [| done].
  change (HError o e :: console_of (f e))
    with ([HError (T:=T) o e] ++ console_of (f e)).
  by rewrite teardown_calls_app, teardown_calls_console.
Qed.

Lemma teardown_calls_complete_events o (h : Handler.t T) :
  teardown_calls o (complete_events o h) = [].
Proof.
  unfold complete_events. destruct (Handler.complete h) as [f|]; [| done].
  change (HComplete o :: console_of f)
    with ([HComplete (T:=T) o] ++ console_of f).
  by rewrite teardown_calls_app, teardown_calls_console.
Qed.

Lemma teardown_calls_next_events o (h : Handler.t T) v :
  teardown_calls o (next_events o h v) = [].
Proof.
  unfold next_events. destruct (Handler.next h) as [f|]; [| done].
  change (HNext o v :: console_of (f v))
    with ([HNext o v] ++ console_of (f v)).
  by rewrite teardown_calls_app, teardown_calls_console.
Qed.

Lemma teardown_calls_teardown_events o (td : option (Code T)) :
  teardown_calls o (teardown_events o td)
  = match td with Some _ => [Teardown o] | None => [] end.
Proof.
  destruct td as [f|]; [| done]. unfold teardown_events.
  change (Teardown o :: console_of f)
    with ([Teardown (T:=T) o] ++ console_of f).
  by rewrite teardown_calls_app, teardown_calls_self, teardown_calls_console.
Qed.

Lemma teardown_calls_stream o this c :
  delivery_on o c = true ->
  teardown_calls o (stream_trace o this c)
  = if has_terminal o c
    then match _unsubscribe this with Some _ => [Teardown o] | None => [] end
    else [].
Proof.
  induction c as [|x c IH]; [done |]. intros Hc.
  simpl in Hc. apply andb_prop in Hc as [Hx Hc].
  destruct x as [o' v|o' e|o'| | |]; simpl in Hx; try done;
    apply Nat.eqb_eq in Hx as ->;
    cbn [has_terminal existsb is_terminal_on orb stream_trace];
    rewrite ?Nat.eqb_refl; cbn [orb]; rewrite teardown_calls_app.
  - rewrite teardown_calls_next_events. by apply IH.
  - by rewrite teardown_calls_error_events, teardown_calls_teardown_events.
  - by rewrite teardown_calls_complete_events,
         teardown_calls_teardown_events.
Qed.

End PassiveStreams.

(** X2: the state machine of one subscription, for callbacks that only
    record.  A stream of [next]/[error]/[complete] calls on an active
    Observer returns normally; it delivers every [next] up to the first
    terminal call, then that terminal call, then runs the registered
    teardown, and drops the rest.  The Observer ends terminated exactly when
    the stream held a terminal call, and through [error]/[complete] the
    teardown runs at most once however many terminal calls the stream
    makes. *)
Theorem stream_delivers_up_to_first_terminal {T} (fuel : nat) (o : Ref)
    (this : ObserverObj T) (c : Code T) (w : World T) :
  heap w !! o = Some this -> isUnsubscribed this = false ->
  passive (handlers this) -> benign (_unsubscribe this) ->
  delivery_on o c = true -> 2 <= fuel ->
  exists w',
    invoke fuel c w = Returned tt w'
    /\ trace w' = trace w ++ stream_trace o this c
    /\ terminated w' o = has_terminal o c
    /\ registered w' o = _unsubscribe this
    /\ teardown_calls o (trace w')
       = teardown_calls o (trace w)
           ++ (if has_terminal o c
               then match _unsubscribe this with
                    | Some _ => [Teardown o]
                    | None => []
                    end
               else []).
Proof.
  intros Ho Hu Hp Hb Hc Hfuel. destruct fuel as [|[|fuel]]; [lia | lia |].
  eexists. split.
  - unfold invoke; fold (@invoke T). by apply (run_stream_passive fuel o this).
  - cbn [trace heap]. split; [done |]. split; [| split].
    + unfold terminated. cbn [heap]. destruct (has_terminal o c).
      * by rewrite list_lookup_insert_eq by (by eapply lookup_lt_Some).
      * by rewrite Ho.
    + unfold registered. cbn [heap]. destruct (has_terminal o c).
      * by rewrite list_lookup_insert_eq by (by eapply lookup_lt_Some).
      * by rewrite Ho.
    + by rewrite teardown_calls_app, teardown_calls_stream.
Qed.

Lemma stream_delivers_up_to_first_terminal_witness :
  passive recorder
  /\ exists w',
       invoke 2
         [CNext 0 1%Z; CComplete 0; CNext 0 2%Z; CError 0 (ErrString "x")]
         live_registered = Returned tt w'
       /\ trace w'
          = [HNext 0 1%Z; Console "next"; HComplete 0; Console "complete";
             Teardown 0; Console "released"].
Proof.
  assert (passive recorder) as Hp.
  { repeat split; intros;
      match goal with H : _ = Some _ |- _ => injection H as <- end;
      reflexivity. }
  split; [exact Hp |].
  destruct (stream_delivers_up_to_first_terminal 2 0 _
              [CNext 0 1%Z; CComplete 0; CNext 0 2%Z; CError 0 (ErrString "x")]
              live_registered eq_refl eq_refl Hp eq_refl eq_refl (le_n 2))
    as (w' & Hrun & Htr & _).
  exists w'. split; [exact Hrun | exact Htr].
Defined.

(** X3: the Observer never catches.  When a handler of an active Observer
    logs and then throws, the method that entered it ([next], [error] or
    [complete]) ends in that exception right there: the store is unchanged,
    so after a throwing [error] or [complete] handler the Observer is still
    subscribed and its teardown has not run. *)
Theorem throwing_handler_skips_unsubscribe {T} (fuel : nat) (o : Ref)
    (this : ObserverObj T) (w : World T) (e' : ApiError) (pre rest : Code T) :
  heap w !! o = Some this -> isUnsubscribed this = false ->
  only_logs pre = true -> 1 <= fuel ->
  (forall fn v,
     Handler.next (handlers this) = Some fn ->
     fn v = pre ++ CThrow e' :: rest ->
     Observer.next (invoke fuel) o v w
     = Thrown e' (mkWorld (heap w) (trace w ++ HNext o v :: console_of pre)))
  /\ (forall fe e,
        Handler.error (handlers this) = Some fe ->
        fe e = pre ++ CThrow e' :: rest ->
        Observer.error (invoke fuel) o e w
        = Thrown e'
            (mkWorld (heap w) (trace w ++ HError o e :: console_of pre)))
  /\ (forall fc,
        Handler.complete (handlers this) = Some fc ->
        fc = pre ++ CThrow e' :: rest ->
        Observer.complete (invoke fuel) o w
        = Thrown e'
            (mkWorld (heap w) (trace w ++ HComplete o :: console_of pre))).
Proof.
  intros Ho Hu Hlogs Hfuel. destruct fuel as [|fuel]; [lia |].
  assert (forall w0 : World T,
            invoke (S fuel) (pre ++ CThrow e' :: rest) w0
            = Thrown e' (mkWorld (heap w0) (trace w0 ++ console_of pre)))
    as Hthrow.
  { intros w0. apply invoke_throw. by apply invoke_only_logs. }
  split; [| split].
  - intros fn v Hn Hbody. rewrite (next_active _ o this fn) by done.
    rewrite Hbody, Hthrow. simpl. by rewrite <- app_assoc.
  - intros fe e He Hbody.
    unfold Observer.error, get_isUnsubscribed, get_handlers.
    unfold bind at 1 2, deref, ret. rewrite Ho. cbn [negb]. rewrite Hu.
    cbn [negb]. unfold bind at 1 2. rewrite Ho, He, Hbody.
    unfold bind, log. rewrite Hthrow. simpl. by rewrite <- app_assoc.
  - intros fc Hc ->.
    unfold Observer.complete, get_isUnsubscribed, get_handlers.
    unfold bind at 1 2, deref, ret. rewrite Ho. cbn [negb]. rewrite Hu.
    cbn [negb]. unfold bind at 1 2. rewrite Ho, Hc.
    unfold bind, log. rewrite Hthrow. simpl. by rewrite <- app_assoc.
Qed.

Lemma throwing_handler_skips_unsubscribe_witness :
  heap (mkWorld [mkObserver faulty false (Some [CLog (T:=Z) "released"])] [])
    !! 0
  = Some (mkObserver faulty false (Some [CLog "released"]))
  /\ Observer.error (invoke 1) 0 (ErrString "x")
       (mkWorld [mkObserver faulty false (Some [CLog "released"])] [])
     = Thrown (ErrString "boom")
         (mkWorld [mkObserver faulty false (Some [CLog "released"])]
            ([] ++ HError 0 (ErrString "x")
                :: console_of [CLog (T:=Z) "error"])).
Proof.
  split; [reflexivity |].
  exact (proj1 (proj2
           (throwing_handler_skips_unsubscribe 1 0 _
              (mkWorld [mkObserver faulty false (Some [CLog "released"])] [])
              (ErrString "boom") [CLog "error"] [] eq_refl eq_refl eq_refl
              (le_n 1))) _ (ErrString "x") eq_refl eq_refl).
Defined.

(** ** [from] when a [next] handler misbehaves part-way *)
Section FromInterrupted.
Context {T : Type}.
Implicit Types (w : World T) (o : Ref) (h : Handler.t T).

Import Observable.

(** Delivering a prefix on which the [next] handler only logs. *)
Lemma emit_prefix fuel o this fn (vs : list T) : forall w,
  heap w !! o = Some this -> isUnsubscribed this = false ->
  Handler.next (handlers this) = Some fn ->
  (forall v, v ∈ vs -> only_logs (fn v) = true) ->
  run_code (invoke (S fuel)) (map (fun value => CNext o value) vs) w
  = Returned tt
      (mkWorld (heap w)
               (trace w ++ flat_map (next_events o (handlers this)) vs)).
Proof.
  induction vs as [|v vs IH]; intros w Ho Hu Hn Hlogs.
  - simpl. rewrite app_nil_r. by destruct w.
  - cbn [map run_code do_cmd flat_map]. unfold bind.
    rewrite (next_active _ o this fn) by done.
    rewrite invoke_only_logs by (apply Hlogs; left).
    rewrite IH; [| done | done | done |].
    + cbn [heap trace]. unfold next_events at 2. rewrite Hn.
      by rewrite <- !app_assoc.
    + intros v' Hv'. apply Hlogs. by right.
Qed.

(** A handler body that logs, unsubscribes its observer while no teardown
    is registered, and logs again. *)
Lemma cancel_body fuel o this (pre post : Code T) w :
  heap w !! o = Some this -> _unsubscribe this = None ->
  only_logs pre = true -> only_logs post = true ->
  invoke (S fuel) (pre ++ CUnsubscribe o :: post) w
  = Returned tt
      (mkWorld (<[o := mkObserver (handlers this) true None]> (heap w))
               (trace w ++ console_of pre ++ console_of post)).
Proof.
  intros Ho Htd Hpre Hpost. unfold invoke; fold (@invoke T).
  rewrite run_code_app. unfold bind. rewrite run_code_only_logs by done.
  cbn [run_code do_cmd]. unfold bind. rewrite unsubscribe_unfold.
  cbn [heap]. rewrite Ho, Htd. unfold mark_unsubscribed. cbn [heap trace].
  rewrite Ho, Htd. rewrite run_code_only_logs by done. cbn [heap trace].
  by rewrite <- app_assoc.
Qed.

Lemma from_body_split o (vs1 vs2 : list T) v :
  body (_subscribe (from (vs1 ++ v :: vs2)) o)
  = map (fun value => CNext o value) vs1
      ++ CNext o v
      :: (map (fun value => CNext o value) vs2 ++ [CComplete o]).
Proof. simpl. by rewrite map_app, <- app_assoc. Qed.

End FromInterrupted.

(** X4: [from] stops at the first [next] handler that throws.  When the
    handler only logs on the values before [v] and, on [v], logs and throws,
    [from(vs1 ++ v :: vs2).subscribe(h)] ends in that exception: the values
    after [v] are not delivered, [complete] is not called, the Observer is
    left active and its teardown is never stored. *)
Theorem from_stops_at_throwing_next {T} (fuel : nat) (vs1 vs2 : list T)
    (v : T) (h : Handler.t T) (w : World T) fn (e : ApiError)
    (pre rest : Code T) :
  Handler.next h = Some fn ->
  (forall v', v' ∈ vs1 -> only_logs (fn v') = true) ->
  fn v = pre ++ CThrow e :: rest -> only_logs pre = true -> 2 <= fuel ->
  let o := length (heap w) in
  Observable.subscribe (invoke fuel) (Observable.from (vs1 ++ v :: vs2)) h w
  = Thrown e
      (mkWorld (heap w ++ [mkObserver h false None])
               (trace w ++ flat_map (next_events o h) vs1
                        ++ HNext o v :: console_of pre)).
Proof.
  intros Hn Hlogs Hbody Hpre Hfuel o.
  destruct fuel as [|[|fuel]]; [lia | lia |].
  rewrite subscribe_unfold. cbv zeta. fold o. rewrite from_body_split.
  change (invoke (S (S fuel)) ?c) with (run_code (invoke (S fuel)) c).
  rewrite run_code_app. unfold bind.
  pose proof (allocated_lookup h w) as Ho. fold o in Ho.
  rewrite (emit_prefix fuel o _ fn vs1 _ Ho) by done.
  cbn [run_code do_cmd]. unfold bind.
  rewrite (next_active _ o (mkObserver h false None) fn) by done.
  rewrite Hbody.
  rewrite (invoke_throw (S fuel) pre rest e _ _ (invoke_only_logs fuel pre _
                                                   Hpre)).
  cbn [heap trace allocated handlers]. by rewrite <- !app_assoc.
Qed.

Lemma from_stops_at_throwing_next_witness :
  Handler.next faulty
  = Some (fun v => if (v =? 2)%Z
                   then [CLog "bad"; CThrow (ErrString "boom")]
                   else [CLog "next"])
  /\ Observable.subscribe (invoke 2) (Observable.from ([1] ++ 2 :: [3])%Z)
       faulty empty_world
     = Thrown (ErrString "boom")
         (mkWorld [mkObserver faulty false None]
            [HNext 0 1%Z; Console "next"; HNext 0 2%Z; Console "bad"]).
Proof.
  split; [reflexivity |].
  refine (from_stops_at_throwing_next 2 [1%Z] [3%Z] 2%Z faulty empty_world _
            (ErrString "boom") [CLog "bad"] [] eq_refl _ eq_refl eq_refl
            (le_n 2)).
  intros v' Hv'. apply list_elem_of_singleton in Hv' as ->. reflexivity.
Defined.

(** X5: cancelling from inside a [next] callback.  Take a producer that
    has shared its Observer with the handlers and whose body emits [vs1],
    then [v], then goes on with further [next]/[error]/[complete] calls.
    When the [next] handler only logs on [vs1] and, on [v], calls
    [unsubscribe()] on that Observer (between some logging), [subscribe]
    still returns normally; nothing the producer emits after [v] reaches a
    handler; and since the teardown is stored only afterwards, that
    [unsubscribe()] did not run it. *)
Theorem producer_cancelled_inside_next {T} (fuel : nat)
    (obs : Observable.t T) (vs1 : list T) (v : T) (rest : Code T)
    (h : Handler.t T) (w : World T) fn (pre post : Code T) :
  let o := length (heap w) in
  Observable.body (Observable._subscribe obs o)
  = map (fun value => CNext o value) vs1 ++ CNext o v :: rest ->
  delivery_on o rest = true ->
  Handler.next h = Some fn ->
  (forall v', v' ∈ vs1 -> only_logs (fn v') = true) ->
  fn v = pre ++ CUnsubscribe o :: post ->
  only_logs pre = true -> only_logs post = true -> 2 <= fuel ->
  Observable.subscribe (invoke fuel) obs h w
  = Returned (Observable.mkSubscription o)
      (mkWorld
         (heap w ++ [mkObserver h true
                       (Some (Observable.teardown
                                (Observable._subscribe obs o)))])
         (trace w ++ flat_map (next_events o h) vs1
                  ++ HNext o v :: console_of pre ++ console_of post)).
Proof.
  intros o Hshape Hrest Hn Hlogs Hbody Hpre Hpost Hfuel.
  destruct fuel as [|[|fuel]]; [lia | lia |].
  rewrite subscribe_unfold. cbv zeta. fold o. rewrite Hshape.
  change (invoke (S (S fuel)) ?c) with (run_code (invoke (S fuel)) c).
  rewrite run_code_app. unfold bind at 1.
  pose proof (allocated_lookup h w) as Ho. fold o in Ho.
  rewrite (emit_prefix fuel o _ fn vs1 _ Ho) by done.
  cbn [run_code do_cmd]. unfold bind at 1.
  rewrite (next_active _ o (mkObserver h false None) fn) by done.
  rewrite Hbody.
  rewrite (cancel_body fuel o (mkObserver h false None)) by done.
  cbn [heap trace handlers].
  assert (o < length (heap (allocated h w))) as Hlt
    by (by eapply lookup_lt_Some).
  rewrite (run_delivery_terminated _ o).
  - cbn [heap trace]. rewrite list_lookup_insert_eq by done.
    cbn [handlers isUnsubscribed]. rewrite list_insert_insert_eq.
    f_equal. f_equal.
    + unfold allocated, o. cbn [heap].
      rewrite <- (Nat.add_0_r (length (heap w))).
      by rewrite insert_app_r.
    + unfold allocated. cbn [trace]. by rewrite <- !app_assoc.
  - done.
  - unfold terminated. cbn [heap]. by rewrite list_lookup_insert_eq.
Qed.

Lemma producer_cancelled_inside_next_witness :
  Observable.body (Observable._subscribe sharing 0)
  = map (fun value => CNext 0 value) [1%Z] ++ CNext 0 2%Z
      :: [CNext 0 3%Z; CComplete 0]
  /\ Observable.subscribe (invoke 2) sharing cancelling empty_world
     = Returned (Observable.mkSubscription 0)
         (mkWorld [mkObserver cancelling true (Some [CLog "released"])]
            [HNext 0 1%Z; Console "next"; HNext 0 2%Z; Console "stop";
             Console "bye"]).
Proof.
  split; [reflexivity |].
  refine (producer_cancelled_inside_next 2 sharing [1%Z] 2%Z
            [CNext 0 3%Z; CComplete 0] cancelling empty_world _
            [CLog "stop"] [CLog "bye"] eq_refl eq_refl eq_refl _ eq_refl
            eq_refl eq_refl (le_n 2)).
  intros v' Hv'. apply list_elem_of_singleton in Hv' as ->. reflexivity.
Defined.

(** ** Composing [subscribe] with what follows *)
Section Composition.
Context {T : Type}.
Implicit Types (w : World T) (o : Ref) (h : Handler.t T).

Import Observable.

Lemma insert_last (l : list (ObserverObj T)) (x y : ObserverObj T) :
  <[length l := y]> (l ++ [x]) = l ++ [y].
Proof.
  rewrite <- (Nat.add_0_r (length l)). by rewrite insert_app_r.
Qed.

Lemma lookup_last (l : list (ObserverObj T)) (x : ObserverObj T) :
  (l ++ [x]) !! length l = Some x.
Proof. by rewrite lookup_app_r, Nat.sub_diag by lia. Qed.

(** [subscribe] on a producer that only emits to its observer, with
    handlers that only log. *)
Lemma subscribe_emitting fuel (obs : Observable.t T) h w :
  let o := length (heap w) in
  let c := body (_subscribe obs o) in
  passive h -> delivery_on o c = true ->
  subscribe (invoke (S (S fuel))) obs h w
  = Returned (mkSubscription o)
      (mkWorld
         (heap w ++ [mkObserver h (has_terminal o c)
                       (Some (teardown (_subscribe obs o)))])
         (trace w ++ stream_trace o (mkObserver h false None) c)).
Proof.
  intros o c Hp Hc. rewrite subscribe_unfold. cbv zeta. fold o. fold c.
  change (invoke (S (S fuel)) ?x) with (run_code (invoke (S fuel)) x).
  pose proof (allocated_lookup h w) as Ho. fold o in Ho.
  rewrite (run_stream_passive fuel o (mkObserver h false None) c _ Ho)
    by done.
  cbn [heap trace handlers _unsubscribe allocated].
  destruct (has_terminal o c).
  - unfold o. rewrite insert_last, lookup_last. cbn [handlers isUnsubscribed].
    by rewrite insert_last.
  - unfold o. rewrite lookup_last. cbn [handlers isUnsubscribed].
    by rewrite insert_last.
Qed.

End Composition.

(** X6: [subscribe] on any producer that just emits.  For a producer whose
    body is a stream of [next]/[error]/[complete] calls on its observer and
    for handlers that only record, [subscribe] returns normally; the trace
    grows by the stream up to its first terminal call; the new Observer is
    terminated exactly when the stream held a terminal call; and the
    teardown returned by the producer is stored without having run, even
    when the stream terminated. *)
Theorem subscribe_to_emitting_producer {T} (fuel : nat)
    (obs : Observable.t T) (h : Handler.t T) (w : World T) :
  let o := length (heap w) in
  let c := Observable.body (Observable._subscribe obs o) in
  passive h -> delivery_on o c = true -> 2 <= fuel ->
  exists w',
    Observable.subscribe (invoke fuel) obs h w
    = Returned (Observable.mkSubscription o) w'
    /\ trace w' = trace w ++ stream_trace o (mkObserver h false None) c
    /\ terminated w' o = has_terminal o c
    /\ registered w' o
       = Some (Observable.teardown (Observable._subscribe obs o))
    /\ teardown_calls o (trace w') = teardown_calls o (trace w).
Proof.
  intros o c Hp Hc Hfuel. destruct fuel as [|[|fuel]]; [lia | lia |].
  eexists. split; [by apply subscribe_emitting |]. cbn [trace heap].
  split; [done |]. split; [| split].
  - unfold terminated. cbn [heap]. unfold o. by rewrite lookup_last.
  - unfold registered. cbn [heap]. unfold o. by rewrite lookup_last.
  - rewrite teardown_calls_app, teardown_calls_stream by done.
    cbn [_unsubscribe].
    match goal with |- context [if ?b then _ else _] => destruct b end;
      apply app_nil_r.
Qed.

Lemma subscribe_to_emitting_producer_witness :
  passive recorder
  /\ exists w',
       Observable.subscribe (invoke 2) emits_two recorder empty_world
       = Returned (Observable.mkSubscription 0) w'
       /\ trace w'
          = [HNext 0 1%Z; Console "next"; HNext 0 2%Z; Console "next"]
       /\ terminated w' 0 = false
       /\ registered w' 0 = Some [CLog "released"].
Proof.
  assert (passive recorder) as Hp.
  { repeat split; intros;
      match goal with H : _ = Some _ |- _ => injection H as <- end;
      reflexivity. }
  split; [exact Hp |].
  destruct (subscribe_to_emitting_producer 2 emits_two recorder empty_world
              Hp eq_refl (le_n 2)) as (w' & Hsub & Htr & Ht & Hreg & _).
  exists w'. split; [exact Hsub |]. split; [exact Htr |].
  split; [exact Ht | exact Hreg].
Defined.

(** X7: the script of the demonstration, for any data.  After
    [from(values).subscribe(h)] with handlers that only record, calling
    [unsubscribe()] on the handle returns normally and runs the teardown of
    [from] once, after everything was delivered: the trace is the
    deliveries, the completion, then the teardown and its console line. *)
Theorem from_subscribe_then_unsubscribe {T} (fuel : nat) (values : list T)
    (h : Handler.t T) (w : World T) :
  passive h -> 2 <= fuel ->
  let o := length (heap w) in
  subscribe_then_unsubscribe (invoke fuel) (Observable.from values) h w
  = Returned tt
      (mkWorld
         (heap w ++ [mkObserver h true (Some [CLog "unsubscribed"])])
         (trace w ++ from_events o h values
                  ++ [Teardown o; Console "unsubscribed"])).
Proof.
  intros Hp Hfuel o. destruct fuel as [|[|fuel]]; [lia | lia |].
  unfold subscribe_then_unsubscribe, bind.
  rewrite (from_subscribe_passive fuel values h w Hp).
  unfold Observable.Subscription_unsubscribe. cbn [Observable.observer].
  rewrite (unsubscribe_registered_logs (S fuel) (length (heap w))
             (mkObserver h true (Some [CLog "unsubscribed"]))
             [CLog "unsubscribed"]);
    [| cbn [heap]; apply lookup_last | done | done].
  cbn [heap trace handlers console_of]. rewrite insert_last.
  unfold from_events. fold o. by rewrite <- !app_assoc.
Qed.

Lemma from_subscribe_then_unsubscribe_witness :
  passive recorder
  /\ subscribe_then_unsubscribe (invoke 2) (Observable.from [10; 20]%Z)
       recorder empty_world
     = Returned tt
         (mkWorld [mkObserver recorder true (Some [CLog "unsubscribed"])]
            [HNext 0 10%Z; Console "next"; HNext 0 20%Z; Console "next";
             HComplete 0; Console "complete"; Teardown 0;
             Console "unsubscribed"]).
Proof.
  assert (passive recorder) as Hp.
  { repeat split; intros;
      match goal with H : _ = Some _ |- _ => injection H as <- end;
      reflexivity. }
  split; [exact Hp |].
  exact (from_subscribe_then_unsubscribe 2 [10; 20]%Z recorder empty_world Hp
           (le_n 2)).
Defined.

(** X8: [from] starts over for every subscriber.  Two subscriptions to the
    same [from(values)], with handlers that only record, both return
    normally and each receives all of [values] in order followed by its own
    completion: the second subscriber misses nothing and the first receives
    nothing twice. *)
Theorem from_replays_for_each_subscriber {T} (fuel : nat) (values : list T)
    (h1 h2 : Handler.t T) (w : World T) :
  passive h1 -> passive h2 -> 2 <= fuel ->
  let o1 := length (heap w) in
  let o2 := S (length (heap w)) in
  subscribe_twice (invoke fuel) (Observable.from values) h1 h2 w
  = Returned (Observable.mkSubscription o2)
      (mkWorld
         (heap w ++ [mkObserver h1 true (Some [CLog "unsubscribed"]);
                     mkObserver h2 true (Some [CLog "unsubscribed"])])
         (trace w ++ from_events o1 h1 values ++ from_events o2 h2 values)).
Proof.
  intros Hp1 Hp2 Hfuel o1 o2. destruct fuel as [|[|fuel]]; [lia | lia |].
  unfold subscribe_twice, bind.
  rewrite (from_subscribe_passive fuel values h1 w Hp1).
  rewrite (from_subscribe_passive fuel values h2 _ Hp2).
  cbn [heap trace]. rewrite length_app. cbn [length].
  replace (length (heap w) + 1) with o2 by (unfold o2; lia).
  unfold from_events. fold o1. by rewrite <- !app_assoc.
Qed.

Lemma from_replays_for_each_subscriber_witness :
  passive recorder
  /\ handler_calls 1
       (trace (world_of
                 (subscribe_twice (invoke 2) (Observable.from [10; 20]%Z)
                    recorder recorder empty_world)))
     = [HNext 1 10%Z; HNext 1 20%Z; HComplete 1].
Proof.
  assert (passive recorder) as Hp.
  { repeat split; intros;
      match goal with H : _ = Some _ |- _ => injection H as <- end;
      reflexivity. }
  split; [exact Hp |].
  rewrite (from_replays_for_each_subscriber 2 [10; 20]%Z recorder recorder
             empty_world Hp Hp (le_n 2)).
  reflexivity.
Defined.

(** X9: what the methods never write.  Whatever code runs through the
    methods of the Observers (any callbacks, to any nesting depth, ending
    in any way) and whatever is subscribed later, an existing Observer keeps
    its handlers and its stored teardown; only its [isUnsubscribed] flag can
    change, and only from false to true. *)
Theorem observer_fields_are_stable {T} (fuel : nat) (o : Ref)
    (this : ObserverObj T) (w : World T) :
  heap w !! o = Some this ->
  (forall c : Code T,
     exists u,
       heap (world_of (invoke fuel c w)) !! o
       = Some (mkObserver (handlers this) u (_unsubscribe this))
       /\ (isUnsubscribed this = true -> u = true))
  /\ (forall (obs : Observable.t T) (h : Handler.t T),
        exists u,
          heap (world_of (Observable.subscribe (invoke fuel) obs h w)) !! o
          = Some (mkObserver (handlers this) u (_unsubscribe this))
          /\ (isUnsubscribed this = true -> u = true)).
Proof.
  intros Ho. split.
  - intros c. apply (evolves_handlers w); [apply invoke_evolves | done].
  - intros obs h. apply (evolves_handlers w); [| done].
    apply subscribe_evolves, invoke_evolves.
Qed.

Lemma observer_fields_are_stable_witness :
  heap live_registered !! 0
  = Some (mkObserver recorder false (Some [CLog "released"]))
  /\ exists u,
       heap (world_of
               (invoke 3 [CNext 0 1%Z; CUnsubscribe 0; CError 0 (ErrString "x")]
                  live_registered)) !! 0
       = Some (mkObserver recorder u (Some [CLog "released"])).
Proof.
  split; [reflexivity |].
  destruct (proj1 (observer_fields_are_stable 3 0 _ live_registered eq_refl)
              [CNext 0 1%Z; CUnsubscribe 0; CError 0 (ErrString "x")])
    as (u & Hu & _).
  exists u. exact Hu.
Defined.

(** ** How many Observers there are *)
Section Counting.
Context {T : Type}.
Implicit Types (w : World T) (o : Ref).

Variable call : Code T -> M T unit.
Hypothesis call_size :
  forall c w, length (heap (world_of (call c w))) = length (heap w).

Lemma unsubscribe_size o w :
  length (heap (world_of (Observer.unsubscribe call o w))) = length (heap w).
Proof.
  rewrite unsubscribe_unfold. unfold mark_unsubscribed.
  destruct (heap w !! o) as [this|]; [| done].
  destruct (_unsubscribe this);
    rewrite ?call_size; simpl; by rewrite length_insert.
Qed.

Lemma bind_size {A B} (m : M T A) (k : A -> M T B) w :
  length (heap (world_of (m w))) = length (heap w) ->
  (forall a w1, length (heap (world_of (k a w1))) = length (heap w1)) ->
  length (heap (world_of (bind m k w))) = length (heap w).
Proof.
  intros Hm Hk. unfold bind.
  destruct (m w) as [a w1| | |]; simpl in *; try done. by rewrite Hk.
Qed.

Lemma next_size o v w :
  length (heap (world_of (Observer.next call o v w))) = length (heap w).
Proof.
  unfold_methods. destruct (heap w !! o) as [this|] eqn:Ho; [| done].
  simpl. rewrite Ho. simpl.
  destruct (Handler.next (handlers this)); [| done].
  destruct (isUnsubscribed this); [done |]. simpl. by rewrite call_size.
Qed.

Lemma error_size o e w :
  length (heap (world_of (Observer.error call o e w))) = length (heap w).
Proof.
  unfold Observer.error, get_isUnsubscribed, get_handlers.
  unfold bind at 1 2, deref, ret.
  destruct (heap w !! o) as [this|] eqn:Ho; [| done]. simpl.
  destruct (isUnsubscribed this); [done |]. simpl.
  unfold bind at 1 2. rewrite Ho. apply bind_size.
  - destruct (Handler.error (handlers this)); [| done].
    unfold bind, log. by rewrite call_size.
  - intros. apply unsubscribe_size.
Qed.

Lemma complete_size o w :
  length (heap (world_of (Observer.complete call o w))) = length (heap w).
Proof.
  unfold Observer.complete, get_isUnsubscribed, get_handlers.
  unfold bind at 1 2, deref, ret.
  destruct (heap w !! o) as [this|] eqn:Ho; [| done]. simpl.
  destruct (isUnsubscribed this); [done |]. simpl.
  unfold bind at 1 2. rewrite Ho. apply bind_size.
  - destruct (Handler.complete (handlers this)); [| done].
    unfold bind, log. by rewrite call_size.
  - intros. apply unsubscribe_size.
Qed.

Lemma run_code_size (c : Code T) w :
  length (heap (world_of (run_code call c w))) = length (heap w).
Proof.
  revert w. induction c as [|x c IH]; intros w; [done |].
  cbn [run_code]. apply bind_size; [| intros; apply IH].
  destruct x; simpl.
  - apply next_size.
  - apply error_size.
  - apply complete_size.
  - apply unsubscribe_size.
  - done.
  - done.
Qed.

End Counting.

Lemma invoke_size {T} fuel (c : Code T) (w : World T) :
  length (heap (world_of (invoke fuel c w))) = length (heap w).
Proof.
  revert c w. induction fuel as [|fuel IH]; intros c w; [done |].
  unfold invoke; fold (@invoke T). by apply run_code_size.
Qed.

(** X10: one Observer per subscription.  Every call of [subscribe] creates
    exactly one Observer, however the producer ends (returning, throwing or
    otherwise), and running code through the Observers' methods creates and
    removes none; so a handle always refers to the Observer created by its
    own [subscribe]. *)
Theorem subscribe_creates_exactly_one_observer {T} (fuel : nat)
    (obs : Observable.t T) (h : Handler.t T) (w : World T) :
  length (heap (world_of (Observable.subscribe (invoke fuel) obs h w)))
  = S (length (heap w))
  /\ (forall c : Code T,
        length (heap (world_of (invoke fuel c w))) = length (heap w))
  /\ (forall s w',
        Observable.subscribe (invoke fuel) obs h w = Returned s w' ->
        Observable.observer s = length (heap w)
        /\ heap w !! Observable.observer s = None
        /\ is_Some (heap w' !! Observable.observer s)).
Proof.
  split; [| split].
  - rewrite subscribe_unfold. cbv zeta.
    pose proof (invoke_size fuel
                  (Observable.body
                     (Observable._subscribe obs (length (heap w))))
                  (allocated h w)) as Hsize.
    assert (length (heap (allocated h w)) = S (length (heap w))) as Halloc
      by (simpl; rewrite length_app; simpl; lia).
    destruct (invoke fuel _ _) as [[] w1|e w1|w1|w1]; simpl in *; try lia.
    destruct (heap w1 !! length (heap w)); simpl; [| lia].
    rewrite length_insert. lia.
  - intros c. apply invoke_size.
  - intros s w' Hsub.
    destruct (subscribe_registers fuel obs h w s w' Hsub) as (-> & u & Hu).
    cbn [Observable.observer]. split; [done |]. split.
    + by apply lookup_ge_None.
    + by eexists.
Qed.

(** ** Teardowns that misbehave *)
Section Teardowns2.
Context {T : Type}.
Implicit Types (w : World T) (o : Ref).

Lemma unsubscribe_throwing fuel o this td e' (pre rest : Code T) w :
  heap w !! o = Some this -> _unsubscribe this = Some td ->
  td = pre ++ CThrow e' :: rest -> only_logs pre = true ->
  Observer.unsubscribe (invoke (S fuel)) o w
  = Thrown e'
      (mkWorld (<[o := mkObserver (handlers this) true (Some td)]> (heap w))
               (trace w ++ Teardown o :: console_of pre)).
Proof.
  intros Ho Htd -> Hpre. rewrite unsubscribe_unfold, Ho, Htd.
  rewrite (invoke_throw (S fuel) pre rest e' _ _
             (invoke_only_logs fuel pre _ Hpre)).
  unfold mark_unsubscribed. rewrite Ho, Htd. cbn [heap trace].
  by rewrite <- app_assoc.
Qed.

End Teardowns2.

(** X11: a teardown that throws still terminates the Observer.  When the
    registered teardown logs and then throws, [unsubscribe()] ends in that
    exception with the flag already set; and [error(e)] and [complete()] on
    an active Observer with handlers that only record first deliver to
    their handler, then end in the teardown's exception, leaving the
    Observer terminated. *)
Theorem throwing_teardown_still_terminates {T} (fuel : nat) (o : Ref)
    (this : ObserverObj T) (w : World T) (td : Code T) (e' : ApiError)
    (pre rest : Code T) :
  heap w !! o = Some this -> _unsubscribe this = Some td ->
  td = pre ++ CThrow e' :: rest -> only_logs pre = true -> 2 <= fuel ->
  let marked := <[o := mkObserver (handlers this) true (Some td)]> (heap w) in
  Observer.unsubscribe (invoke fuel) o w
  = Thrown e' (mkWorld marked (trace w ++ Teardown o :: console_of pre))
  /\ terminated (mkWorld marked (trace w)) o = true
  /\ (isUnsubscribed this = false -> passive (handlers this) ->
      (forall e,
         Observer.error (invoke fuel) o e w
         = Thrown e'
             (mkWorld marked
                (trace w ++ error_events o (handlers this) e
                         ++ Teardown o :: console_of pre)))
      /\ Observer.complete (invoke fuel) o w
         = Thrown e'
             (mkWorld marked
                (trace w ++ complete_events o (handlers this)
                         ++ Teardown o :: console_of pre))).
Proof.
  intros Ho Htd Hshape Hpre Hfuel marked.
  destruct fuel as [|[|fuel]]; [lia | lia |].
  split; [by apply (unsubscribe_throwing (S fuel) o this td e' pre rest) |].
  split.
  { unfold terminated, marked. cbn [heap].
    by rewrite list_lookup_insert_eq by (by eapply lookup_lt_Some). }
  intros Hu (_ & He & Hc). split.
  - intros e. unfold error_events.
    unfold Observer.error, get_isUnsubscribed, get_handlers.
    unfold bind at 1 2, deref, ret. rewrite Ho. cbn [negb]. rewrite Hu.
    cbn [negb]. unfold bind at 1 2. rewrite Ho.
    destruct (Handler.error (handlers this)) as [f|] eqn:Hf.
    + unfold bind, log. rewrite invoke_only_logs by eauto.
      rewrite (unsubscribe_throwing (S fuel) o this td e' pre rest)
        by done.
      cbn [heap trace]. by rewrite <- !app_assoc.
    + unfold bind, ret.
      by rewrite (unsubscribe_throwing (S fuel) o this td e' pre rest).
  - unfold complete_events.
    unfold Observer.complete, get_isUnsubscribed, get_handlers.
    unfold bind at 1 2, deref, ret. rewrite Ho. cbn [negb]. rewrite Hu.
    cbn [negb]. unfold bind at 1 2. rewrite Ho.
    destruct (Handler.complete (handlers this)) as [f|] eqn:Hf.
    + unfold bind, log. rewrite invoke_only_logs by eauto.
      rewrite (unsubscribe_throwing (S fuel) o this td e' pre rest)
        by done.
      cbn [heap trace]. by rewrite <- !app_assoc.
    + unfold bind, ret.
      by rewrite (unsubscribe_throwing (S fuel) o this td e' pre rest).
Qed.

Lemma throwing_teardown_still_terminates_witness :
  heap failing_teardown !! 0
  = Some (mkObserver recorder false
            (Some [CLog "releasing"; CThrow (ErrString "stuck")]))
  /\ Observer.unsubscribe (invoke 2) 0 failing_teardown
     = Thrown (ErrString "stuck")
         (mkWorld
            [mkObserver recorder true
               (Some [CLog "releasing"; CThrow (ErrString "stuck")])]
            [Teardown 0; Console "releasing"]).
Proof.
  split; [reflexivity |].
  exact (proj1 (throwing_teardown_still_terminates 2 0 _ failing_teardown _
                  (ErrString "stuck") [CLog "releasing"] [] eq_refl eq_refl
                  eq_refl eq_refl (le_n 2))).
Defined.

(** X12: [unsubscribe()] has no guard against re-entry.  When the
    registered teardown of an Observer begins by calling [unsubscribe()] on
    that same Observer, [unsubscribe()] never returns: at every bound on the
    nesting depth the run is cut off, the teardown having been entered once
    more than the bound. *)
Theorem self_unsubscribing_teardown_never_returns {T} (fuel : nat) (o : Ref)
    (w : World T) (rest : Code T) :
  registered w o = Some (CUnsubscribe o :: rest) ->
  exists w',
    Observer.unsubscribe (invoke fuel) o w = OutOfFuel w'
    /\ registered w' o = Some (CUnsubscribe o :: rest)
    /\ teardown_calls o (trace w')
       = teardown_calls o (trace w) ++ replicate (S fuel) (Teardown o).
Proof.
  revert w. induction fuel as [|fuel IH]; intros w Hreg;
    unfold registered in Hreg;
    destruct (heap w !! o) as [this|] eqn:Ho; try done;
    rewrite unsubscribe_unfold, Ho, Hreg;
    set (w2 := mkWorld (heap (mark_unsubscribed o w))
                       (trace w ++ [Teardown o]));
    assert (registered w2 o = Some (CUnsubscribe o :: rest)) as Hreg2
      by (unfold registered, w2, mark_unsubscribed; rewrite Ho; cbn [heap];
          rewrite list_lookup_insert_eq by (by eapply lookup_lt_Some);
          done).
  - exists w2. split; [done |]. split; [done |]. subst w2. cbn [trace].
    by rewrite teardown_calls_app, teardown_calls_self.
  - destruct (IH w2 Hreg2) as (w' & Hrun & Hreg' & Hcalls).
    exists w'. unfold invoke; fold (@invoke T). cbn [run_code do_cmd].
    unfold bind. rewrite Hrun. split; [done |]. split; [done |].
    rewrite Hcalls. subst w2. cbn [trace].
    rewrite teardown_calls_app, teardown_calls_self, <- app_assoc. done.
Qed.

Lemma self_unsubscribing_teardown_never_returns_witness :
  registered self_unsubscribing 0 = Some [CUnsubscribe 0]
  /\ exists w',
       Observer.unsubscribe (invoke 5) 0 self_unsubscribing = OutOfFuel w'
       /\ teardown_calls 0 (trace w') = replicate 6 (Teardown 0).
Proof.
  split; [reflexivity |].
  destruct (self_unsubscribing_teardown_never_returns 5 0 self_unsubscribing
              [] eq_refl) as (w' & Hrun & _ & Hcalls).
  exists w'. split; [exact Hrun | exact Hcalls].
Defined.
